(** * The page controller of the document scanner: [app/static/js/main.js]

    The script binds two controls of the page to two HTTP endpoints: the
    index button to [POST /api/index-documents] and the question form to
    [POST /api/ask], and renders the JSON replies into the page.

    The development has four layers:
    - [JSNumber]: the Number values of the script (IEEE 754 binary64, as
      Stdlib's [spec_float]) with the two platform operations the script
      applies to them, [Number.prototype.toFixed] and the default
      number-to-string conversion;
    - [JSValue]: strings and parsed JSON values with the coercions the
      script relies on (truthiness, [ToString], [ToNumber], [trim]);
    - [Page]: the eight DOM elements the script binds, and the effects it
      has on the world around them (alerts, console, network);
    - [Controller]: the two event handlers and their promise chains, and the
      event loop that runs them. *)

From Stdlib Require Import ZArith List String Ascii Bool Lia.
From Stdlib Require Import Floats.SpecFloat.
Import ListNotations.

Local Open Scope string_scope.
Local Open Scope Z_scope.

(** ** Numbers *)

Module JSNumber.

(** A Number is a binary64 float: 53 bits of precision, exponents below 1024. *)
Definition number : Type := spec_float.
Definition prec : Z := 53.
Definition emax : Z := 1024.

Definition NaN : number := S754_nan.
Definition of_Z (z : Z) : number := binary_normalize prec emax z 0 false.

(** [x * y], rounded to nearest, ties to even. *)
Definition mul (x y : number) : number := SFmul prec emax x y.

(** [x > 0] as the script writes it: false when [x] is NaN. *)
Definition gt_zero (x : number) : bool := SFltb (S754_zero false) x.

(** The Number that a decimal literal [digits * 10^exp10] of a JSON text
    denotes: the binary64 value nearest to it. *)
Definition of_decimal (digits : positive) (exp10 : Z) : number :=
  if 0 <=? exp10 then of_Z (Zpos digits * 10 ^ exp10)
  else SFdiv prec emax (S754_finite false digits 0)
                       (S754_finite false (Z.to_pos (10 ^ (- exp10))) 0).

(** *** Decimal digits of a non-negative integer *)

Definition digit_char (d : Z) : ascii := ascii_of_nat (48 + Z.to_nat d).

Fixpoint digits_fuel (fuel : nat) (n : Z) (acc : string) : string :=
  match fuel with
  | O => acc
  | S fuel' =>
      let acc' := String (digit_char (n mod 10)) acc in
      if n / 10 =? 0 then acc' else digits_fuel fuel' (n / 10) acc'
  end.

Definition decimal_digits (n : Z) : string :=
  digits_fuel (S (Z.to_nat (Z.log2 n))) n EmptyString.

Fixpoint zeros (k : nat) : string :=
  match k with
  | O => EmptyString
  | S k' => String "0"%char (zeros k')
  end.

Definition strlen (s : string) : Z := Z.of_nat (String.length s).

(** *** Number::toString (radix 10)

    For a finite positive value [m * 2^e] the conversion picks the shortest
    decimal [s * 10^p] that reads back as the same Number, the closest one
    when several have that length.  All comparisons are exact: values are
    scaled to integers, in units of [2^(e-2)] so that the midpoints to the
    neighbouring floats are integers too. *)

Section Shortest.
Variable m : positive.
Variable e : Z.

(** The value and the midpoints to its two neighbours, in units of [2^(e-2)]. *)
Definition value4 : Z := 4 * Zpos m.
Definition low4 : Z :=
  4 * Zpos m - (if (Zpos m =? 2 ^ 52) && (-1074 <? e) then 1 else 2).
Definition high4 : Z := 4 * Zpos m + 2.

(** [c * 10^p] and [b * 2^(e-2)] over a common denominator. *)
Definition cand_scale (p : Z) : Z := 10 ^ Z.max p 0 * 2 ^ Z.max (- (e - 2)) 0.
Definition unit_scale (p : Z) : Z := 2 ^ Z.max (e - 2) 0 * 10 ^ Z.max (- p) 0.

(** Does [c * 10^p] read back as this Number?  A midpoint does when the
    mantissa is even. *)
Definition reads_back (p c : Z) : bool :=
  let v := c * cand_scale p in
  (1 <=? c) &&
  (if Z.even (Zpos m)
   then (low4 * unit_scale p <=? v) && (v <=? high4 * unit_scale p)
   else (low4 * unit_scale p <? v) && (v <? high4 * unit_scale p)).

Definition distance (p c : Z) : Z :=
  Z.abs (c * cand_scale p - value4 * unit_scale p).

(** The best multiple of [10^p] that reads back, if there is one. *)
Definition shortest_at (p : Z) : option Z :=
  let c := (value4 * unit_scale p) / cand_scale p in
  match reads_back p c, reads_back p (c + 1) with
  | true, true =>
      if distance p c <? distance p (c + 1) then Some c
      else if distance p (c + 1) <? distance p c then Some (c + 1)
      else Some (if Z.even c then c else c + 1)
  | true, false => Some c
  | false, true => Some (c + 1)
  | false, false => None
  end.

(** Search from a power of ten above the value downwards; the first hit has
    the fewest digits.  At [p = min e 0] the value itself is a multiple of
    [10^p], so the search ends there at the latest. *)
Fixpoint shortest_from (fuel : nat) (p : Z) : Z * Z :=
  match fuel with
  | O => (Zpos m * 2 ^ Z.max e 0 * 5 ^ Z.max (- e) 0, Z.min e 0)
  | S fuel' =>
      match shortest_at p with
      | Some s => (s, p)
      | None => shortest_from fuel' (p - 1)
      end
  end.

Definition shortest : Z * Z :=
  let p0 := ((Z.log2 (Zpos m) + e + 2) * 30103) / 100000 + 2 in
  shortest_from (Z.to_nat (p0 - Z.min e 0)) p0.
End Shortest.

Definition finite_to_string (m : positive) (e : Z) : string :=
  let '(s, p) := shortest m e in
  let digits := decimal_digits s in
  let k := strlen digits in
  let n := p + k in
  if (k <=? n) && (n <=? 21) then digits ++ zeros (Z.to_nat (n - k))
  else if (0 <? n) && (n <=? 21) then
    substring 0 (Z.to_nat n) digits ++ "." ++
    substring (Z.to_nat n) (Z.to_nat (k - n)) digits
  else if (-6 <? n) && (n <=? 0) then "0." ++ zeros (Z.to_nat (- n)) ++ digits
  else
    let ex := n - 1 in
    let sign := if ex <? 0 then "-" else "+" in
    if k =? 1 then digits ++ "e" ++ sign ++ decimal_digits (Z.abs ex)
    else substring 0 1 digits ++ "." ++ substring 1 (Z.to_nat (k - 1)) digits
         ++ "e" ++ sign ++ decimal_digits (Z.abs ex).

Definition to_string (x : number) : string :=
  match x with
  | S754_nan => "NaN"
  | S754_zero _ => "0"
  | S754_infinity false => "Infinity"
  | S754_infinity true => "-Infinity"
  | S754_finite false m e => finite_to_string m e
  | S754_finite true m e => "-" ++ finite_to_string m e
  end.

(** *** Number.prototype.toFixed *)

(** [m * 2^e >= 10^21], exactly. *)
Definition ge_1e21 (m : positive) (e : Z) : bool :=
  if 0 <=? e then 10 ^ 21 <=? Zpos m * 2 ^ e
  else 10 ^ 21 * 2 ^ (- e) <=? Zpos m.

(** The integer [n] for which [n / 10^f] is closest to [m * 2^e]; of two
    equally close ones, the larger. *)
Definition nearest_scaled (f : nat) (m : positive) (e : Z) : Z :=
  if 0 <=? e then Zpos m * 2 ^ e * 10 ^ Z.of_nat f
  else (2 * Zpos m * 10 ^ Z.of_nat f + 2 ^ (- e)) / 2 ^ (- e + 1).

(** The digits of [n] with a point before the last [f] of them. *)
Definition fixed_digits (f : nat) (n : Z) : string :=
  let d := if n =? 0 then "0" else decimal_digits n in
  match f with
  | O => d
  | S _ =>
      let d := if (String.length d <=? f)%nat
               then zeros (f + 1 - String.length d) ++ d else d in
      let k := String.length d in
      substring 0 (k - f) d ++ "." ++ substring (k - f) f d
  end.

Definition toFixed (f : nat) (x : number) : string :=
  match x with
  | S754_nan | S754_infinity _ => to_string x
  | S754_zero _ => fixed_digits f 0
  | S754_finite s m e =>
      (if s then "-" else EmptyString) ++
      (if ge_1e21 m e then to_string (S754_finite false m e)
       else fixed_digits f (nearest_scaled f m e))
  end.

(** *** Reading a fixed-point text with one decimal place *)

Definition is_digit (c : ascii) : bool :=
  let n := nat_of_ascii c in ((48 <=? n) && (n <=? 57))%nat.

(** Digits, a point and one last digit; [seen] tells whether a digit came
    before. *)
Fixpoint digits_point_digit (s : string) (seen : bool) : bool :=
  match s with
  | EmptyString => false
  | String c s' =>
      if is_digit c then digits_point_digit s' true
      else Ascii.eqb c "." && seen &&
           match s' with
           | String d EmptyString => is_digit d
           | _ => false
           end
  end.

(** [-]ddd.d *)
Definition is_one_decimal (s : string) : bool :=
  match s with
  | EmptyString => false
  | String c s' =>
      if Ascii.eqb c "-" then digits_point_digit s' false
      else digits_point_digit s false
  end.

Fixpoint all_digits (s : string) : bool :=
  match s with
  | EmptyString => true
  | String c s' => is_digit c && all_digits s'
  end.

(** The integer a string of digits denotes. *)
Fixpoint digits_value (s : string) (acc : Z) : Z :=
  match s with
  | EmptyString => acc
  | String c s' => digits_value s' (acc * 10 + (Z.of_nat (nat_of_ascii c) - 48))
  end.

(** Finite and below [10^21] in magnitude: the values [toFixed] writes in
    fixed-point notation. *)
Definition fixed_range (x : number) : bool :=
  match x with
  | S754_zero _ => true
  | S754_finite _ m e => negb (ge_1e21 m e)
  | S754_nan | S754_infinity _ => false
  end.

(** [0 <= x <= 1], exactly: the range the page's data model gives a
    relevance score. *)
Definition in_unit_interval (x : number) : bool :=
  match x with
  | S754_zero _ => true
  | S754_finite false m e =>
      if 0 <=? e then Zpos m * 2 ^ e <=? 1 else Zpos m <=? 2 ^ (- e)
  | _ => false
  end.

(** The magnitude of [x] in tenths, rounded as [toFixed 1] rounds it. *)
Definition tenths (x : number) : Z :=
  match x with
  | S754_finite _ m e => nearest_scaled 1 m e
  | _ => 0
  end.

Definition minus_sign (x : number) : string :=
  match x with
  | S754_finite true _ _ => "-"
  | _ => EmptyString
  end.

(** Above zero: a positive finite value or [+Infinity]. *)
Definition positive_number (x : number) : Prop :=
  match x with
  | S754_finite false _ _ | S754_infinity false => True
  | _ => False
  end.

(** [t] is an integer nearest to ten times the magnitude of [x]:
    [|t - 10 * m * 2^e| <= 1/2], cleared of denominators. *)
Definition nearest_tenth (x : number) (t : Z) : Prop :=
  match x with
  | S754_finite _ m e =>
      2 * Z.abs (t * 2 ^ Z.max (- e) 0 - 10 * Zpos m * 2 ^ Z.max e 0)
      <= 2 ^ Z.max (- e) 0
  | _ => t = 0
  end.

End JSNumber.

(** ** Strings and parsed JSON values *)

Module JSValue.
Import JSNumber.

(** Strings are sequences of code units; the model keeps the code units
    below 256, so a character is an [ascii]. *)

(** WhiteSpace and LineTerminator code units (below 256): TAB, LF, VT, FF,
    CR, SP and NBSP. *)
Definition is_white_space (c : ascii) : bool :=
  let n := nat_of_ascii c in
  ((9 <=? n) && (n <=? 13) || (n =? 32) || (n =? 160))%nat.

Fixpoint trim_start (s : string) : string :=
  match s with
  | EmptyString => EmptyString
  | String c s' => if is_white_space c then trim_start s' else s
  end.

Fixpoint trim_end (s : string) : string :=
  match s with
  | EmptyString => EmptyString
  | String c s' =>
      match trim_end s' with
      | EmptyString => if is_white_space c then EmptyString else String c EmptyString
      | t => String c t
      end
  end.

(** [String.prototype.trim] *)
Definition trim (s : string) : string := trim_end (trim_start s).

Definition is_empty (s : string) : bool :=
  match s with EmptyString => true | String _ _ => false end.

Fixpoint all_white_space (s : string) : bool :=
  match s with
  | EmptyString => true
  | String c s' => is_white_space c && all_white_space s'
  end.

(** [needle] occurs in [hay]. *)
Definition contains (needle hay : string) : Prop :=
  exists before after, hay = before ++ needle ++ after.

(** The double quote, for the markup the script writes. *)
Definition dquote : string := String (ascii_of_nat 34) EmptyString.

(** *** StringToNumber *)

Definition digit_value (base : Z) (c : ascii) : option Z :=
  let n := Z.of_nat (nat_of_ascii c) in
  let v := if (48 <=? n) && (n <=? 57) then n - 48
           else if (97 <=? n) && (n <=? 102) then n - 87
           else if (65 <=? n) && (n <=? 70) then n - 55
           else base in
  if v <? base then Some v else None.

(** The longest prefix of digits: its value, its length, and the rest. *)
Fixpoint read_digits (base : Z) (s : string) (acc : Z) (count : Z) : Z * Z * string :=
  match s with
  | EmptyString => (acc, count, s)
  | String c s' =>
      match digit_value base c with
      | Some v => read_digits base s' (acc * base + v) (count + 1)
      | None => (acc, count, s)
      end
  end.

Definition read_sign (s : string) : bool * string :=
  match s with
  | String "-"%char s' => (true, s')
  | String "+"%char s' => (false, s')
  | _ => (false, s)
  end.

(** ExponentPart, or nothing, up to the end of the string. *)
Definition read_exponent (s : string) : option Z :=
  match s with
  | EmptyString => Some 0
  | String c s' =>
      if (Ascii.eqb c "e" || Ascii.eqb c "E")%bool then
        let '(neg, s'') := read_sign s' in
        match read_digits 10 s'' 0 0 with
        | (v, n, EmptyString) =>
            if 1 <=? n then Some (if neg then - v else v) else None
        | _ => None
        end
      else None
  end.

Definition signed (neg : bool) (x : number) : number :=
  if neg then SFopp x else x.

Definition decimal_value (neg : bool) (mant exp10 : Z) : number :=
  match mant with
  | Zpos p => signed neg (of_decimal p exp10)
  | _ => S754_zero neg
  end.

(** StrUnsignedDecimalLiteral other than [Infinity]. *)
Definition read_unsigned_decimal (neg : bool) (s : string) : number :=
  let '(ip, ni, r1) := read_digits 10 s 0 0 in
  match r1 with
  | String "."%char r2 =>
      let '(m, nf, r3) := read_digits 10 r2 ip 0 in
      if 1 <=? ni + nf then
        match read_exponent r3 with
        | Some ex => decimal_value neg m (ex - nf)
        | None => NaN
        end
      else NaN
  | _ =>
      if 1 <=? ni then
        match read_exponent r1 with
        | Some ex => decimal_value neg ip ex
        | None => NaN
        end
      else NaN
  end.

(** NonDecimalIntegerLiteral: the digits after [0x], [0o] or [0b]. *)
Definition read_radix (base : Z) (s : string) : number :=
  match read_digits base s 0 0 with
  | (v, n, EmptyString) => if 1 <=? n then of_Z v else NaN
  | _ => NaN
  end.

Definition StringToNumber (str : string) : number :=
  let text := trim str in
  match text with
  | EmptyString => S754_zero false
  | String "0"%char (String "x"%char r) | String "0"%char (String "X"%char r) =>
      read_radix 16 r
  | String "0"%char (String "o"%char r) | String "0"%char (String "O"%char r) =>
      read_radix 8 r
  | String "0"%char (String "b"%char r) | String "0"%char (String "B"%char r) =>
      read_radix 2 r
  | _ =>
      let '(neg, r) := read_sign text in
      if String.eqb r "Infinity" then S754_infinity neg
      else read_unsigned_decimal neg r
  end.

(** *** JSON values *)

#[warnings="-register-all"]
Inductive json : Type :=
  | JNull
  | JBool (b : bool)
  | JNum (x : number)
  | JStr (s : string)
  | JArr (items : list json)
  | JObj (fields : list (string * json)).

(** A value the script handles: a JSON value, or [None] for [undefined]. *)
Definition value : Type := option json.

Fixpoint lookup (k : string) (fields : list (string * json)) : value :=
  match fields with
  | [] => None
  | (k', v) :: rest => if String.eqb k k' then Some v else lookup k rest
  end.

(** ToBoolean *)
Definition truthy (v : value) : bool :=
  match v with
  | None | Some JNull => false
  | Some (JBool b) => b
  | Some (JNum (S754_zero _)) | Some (JNum S754_nan) => false
  | Some (JNum _) => true
  | Some (JStr s) => negb (is_empty s)
  | Some (JArr _) | Some (JObj _) => true
  end.

(** [fields] has a key [k] of its own. *)
Definition has_own (k : string) (fields : list (string * json)) : bool :=
  match lookup k fields with
  | Some _ => true
  | None => false
  end.

(** ToString of a JSON value, [None] where the conversion throws a
    TypeError.  An object is converted by its [toString] method, then by
    [valueOf].  A parsed object inherits both: the inherited [toString]
    gives [[object Object]], the inherited [valueOf] gives the object
    back.  A key [toString] of the object's own hides the inherited method
    and holds a JSON value, which cannot be called, so no method gives a
    primitive value and the conversion throws.  An array joins its items
    with commas, [null] items as empty strings, and throws where an item
    does. *)
Fixpoint json_to_string (v : json) : option string :=
  match v with
  | JNull => Some "null"
  | JBool true => Some "true"
  | JBool false => Some "false"
  | JNum x => Some (to_string x)
  | JStr s => Some s
  | JArr items =>
      (fix join (l : list json) : option string :=
         match l with
         | [] => Some EmptyString
         | x :: rest =>
             match match x with JNull => Some EmptyString | _ => json_to_string x end with
             | None => None
             | Some sx =>
                 match rest with
                 | [] => Some sx
                 | _ :: _ =>
                     match join rest with
                     | None => None
                     | Some sr => Some (sx ++ "," ++ sr)
                     end
                 end
             end
         end) items
  | JObj fields =>
      if has_own "toString" fields then None else Some "[object Object]"
  end.

(** ToString, as a template literal applies it; [None] where it throws. *)
Definition ToString (v : value) : option string :=
  match v with
  | None => Some "undefined"
  | Some j => json_to_string j
  end.

(** ToNumber; [None] where it throws.  An object is converted by [valueOf],
    then by [toString], and the result read as a number: it throws for the
    objects for which ToString does. *)
Definition ToNumber (v : value) : option number :=
  match v with
  | None => Some NaN
  | Some JNull => Some (S754_zero false)
  | Some (JBool true) => Some (of_Z 1)
  | Some (JBool false) => Some (S754_zero false)
  | Some (JNum x) => Some x
  | Some (JStr s) => Some (StringToNumber s)
  | Some (JArr items) =>
      match json_to_string (JArr items) with
      | Some text => Some (StringToNumber text)
      | None => None
      end
  | Some (JObj fields) =>
      if has_own "toString" fields then None else Some NaN
  end.

(** *** Errors and completions *)

Record js_error : Type := JsError { error_name : string; error_message : string }.

(** The three ways a callback of the script can fail. *)
Inductive type_error : Type :=
  | ReadOfNull (prop : string)      (* [null.prop] *)
  | NotAFunction (expr : string)    (* [expr(...)] where [expr] is no function *)
  | NotPrimitive.                   (* ToString or ToNumber of an object that
                                       converts to no primitive value *)

Inductive completion (A : Type) : Type :=
  | Normal (a : A)
  | Throw (e : js_error).
Arguments Normal {A} a.
Arguments Throw {A} e.

End JSValue.

(** ** The page *)

Module Page.
Import JSNumber JSValue.

(** The elements the script looks up by id when the document has loaded. *)
Inductive element : Type :=
  | indexButton
  | indexStatus
  | questionForm
  | questionInput
  | loadingIndicator
  | answerSection
  | answerContent
  | sourcesList.

Definition element_eqb (a b : element) : bool :=
  match a, b with
  | indexButton, indexButton | indexStatus, indexStatus
  | questionForm, questionForm | questionInput, questionInput
  | loadingIndicator, loadingIndicator | answerSection, answerSection
  | answerContent, answerContent | sourcesList, sourcesList => true
  | _, _ => false
  end.

(** A child node: what the HTML parser builds from markup assigned to
    [innerHTML], a text node, or an element made by [createElement]. *)
#[warnings="-register-all"]
Inductive node : Type :=
  | Markup (source : string)
  | Text (data : string)
  | Element (tag className : string) (children : list node).

(** A node whose content went through the HTML parser. *)
Definition is_markup (n : node) : bool :=
  match n with Markup _ => true | _ => false end.

(** What the script reads and writes of an element. *)
Record element_state : Type := ElementState {
  disabled : bool;
  value : string;
  classList : list string;
  childNodes : list node
}.

(** The document, as far as the script sees it: the state of each bound
    element. *)
Record dom : Type := Dom {
  at_indexButton : element_state;
  at_indexStatus : element_state;
  at_questionForm : element_state;
  at_questionInput : element_state;
  at_loadingIndicator : element_state;
  at_answerSection : element_state;
  at_answerContent : element_state;
  at_sourcesList : element_state
}.

Definition state_of (d : dom) (el : element) : element_state :=
  match el with
  | indexButton => at_indexButton d
  | indexStatus => at_indexStatus d
  | questionForm => at_questionForm d
  | questionInput => at_questionInput d
  | loadingIndicator => at_loadingIndicator d
  | answerSection => at_answerSection d
  | answerContent => at_answerContent d
  | sourcesList => at_sourcesList d
  end.
Coercion state_of : dom >-> Funclass.

Definition update (d : dom) (el : element) (st : element_state) : dom :=
  match el with
  | indexButton =>
      Dom st (d indexStatus) (d questionForm) (d questionInput)
          (d loadingIndicator) (d answerSection) (d answerContent) (d sourcesList)
  | indexStatus =>
      Dom (d indexButton) st (d questionForm) (d questionInput)
          (d loadingIndicator) (d answerSection) (d answerContent) (d sourcesList)
  | questionForm =>
      Dom (d indexButton) (d indexStatus) st (d questionInput)
          (d loadingIndicator) (d answerSection) (d answerContent) (d sourcesList)
  | questionInput =>
      Dom (d indexButton) (d indexStatus) (d questionForm) st
          (d loadingIndicator) (d answerSection) (d answerContent) (d sourcesList)
  | loadingIndicator =>
      Dom (d indexButton) (d indexStatus) (d questionForm) (d questionInput)
          st (d answerSection) (d answerContent) (d sourcesList)
  | answerSection =>
      Dom (d indexButton) (d indexStatus) (d questionForm) (d questionInput)
          (d loadingIndicator) st (d answerContent) (d sourcesList)
  | answerContent =>
      Dom (d indexButton) (d indexStatus) (d questionForm) (d questionInput)
          (d loadingIndicator) (d answerSection) st (d sourcesList)
  | sourcesList =>
      Dom (d indexButton) (d indexStatus) (d questionForm) (d questionInput)
          (d loadingIndicator) (d answerSection) (d answerContent) st
  end.

Record request : Type := Request {
  url : string;
  method : string;
  headers : list (string * string);
  body : option json   (* the value whose JSON text is sent *)
}.

(** What the script does to the world besides the DOM. *)
Inductive effect : Type :=
  | PreventDefault
  | Alert (text : string)
  | ConsoleError (label : string) (error : js_error)
  | Fetch (req : request).

(** The promise chain attached to a request that has not settled. *)
Inductive chain : Type := IndexChain | AskChain.

Record world : Type := World {
  page : dom;
  log : list effect;        (* effects so far, oldest first *)
  in_flight : list chain    (* requests awaiting their response *)
}.

(** *** Statements of the script: a world transformer that may throw *)

Definition M (A : Type) : Type := world -> completion A * world.

Definition ret {A} (a : A) : M A := fun w => (Normal a, w).
Definition throw {A} (e : js_error) : M A := fun w => (Throw e, w).
Definition bind {A B} (m : M A) (k : A -> M B) : M B :=
  fun w =>
    match m w with
    | (Normal a, w') => k a w'
    | (Throw e, w') => (Throw e, w')
    end.

Declare Scope js_scope.
Delimit Scope js_scope with js.
Notation "x <- m ;; k" := (bind m (fun x => k))
  (at level 61, m at next level, right associativity) : js_scope.
Notation "m ;; k" := (bind m (fun _ => k))
  (at level 61, right associativity) : js_scope.

(** The world a statement leaves behind. *)
Definition exec {A} (m : M A) (w : world) : world := snd (m w).

Definition modify (el : element) (f : element_state -> element_state) : M unit :=
  fun w => (Normal tt, World (update (page w) el (f (page w el))) (log w) (in_flight w)).

Definition emit (e : effect) : M unit :=
  fun w => (Normal tt, World (page w) (log w ++ [e]) (in_flight w)).

(** [el.disabled = b] *)
Definition set_disabled (el : element) (b : bool) : M unit :=
  modify el (fun st => ElementState b (value st) (classList st) (childNodes st)).

Definition with_children (st : element_state) (l : list node) : element_state :=
  ElementState (disabled st) (value st) (classList st) l.

(** [el.innerHTML = s]: the children become what the parser builds from [s]. *)
Definition parsed (s : string) : list node :=
  if is_empty s then [] else [Markup s].
Definition set_innerHTML (el : element) (s : string) : M unit :=
  modify el (fun st => with_children st (parsed s)).

(** [el.textContent = v] converts [v] to a string, [null] and [undefined]
    to the empty string ([None] where the conversion throws); the children
    then become one text node, none for the empty string. *)
Definition text_of (v : JSValue.value) : option string :=
  match v with
  | None | Some JNull => Some EmptyString
  | Some j => json_to_string j
  end.
Definition text_nodes (s : string) : list node :=
  if is_empty s then [] else [Text s].
Definition set_textContent (el : element) (s : string) : M unit :=
  modify el (fun st => with_children st (text_nodes s)).

(** [el.appendChild(n)] for a node [n] that is not in the document yet. *)
Definition appendChild (el : element) (n : node) : M unit :=
  modify el (fun st => with_children st (childNodes st ++ [n])).

(** [el.classList.add(t)] and [el.classList.remove(t)] *)
Fixpoint mem (t : string) (l : list string) : bool :=
  match l with
  | [] => false
  | t' :: l' => String.eqb t t' || mem t l'
  end.
Definition add_token (t : string) (l : list string) : list string :=
  if mem t l then l else l ++ [t].
Definition remove_token (t : string) (l : list string) : list string :=
  filter (fun t' => negb (String.eqb t t')) l.
Definition with_classList (st : element_state) (l : list string) : element_state :=
  ElementState (disabled st) (value st) l (childNodes st).
Definition classList_add (el : element) (t : string) : M unit :=
  modify el (fun st => with_classList st (add_token t (classList st))).
Definition classList_remove (el : element) (t : string) : M unit :=
  modify el (fun st => with_classList st (remove_token t (classList st))).

(** [el.value] *)
Definition get_value (el : element) : M string :=
  fun w => (Normal (value (page w el)), w).

(** [document.createElement(tag)], and assignments to the fresh element. *)
Definition createElement (tag : string) : node := Element tag EmptyString [].
Definition set_className (n : node) (c : string) : node :=
  match n with
  | Element tag _ children => Element tag c children
  | _ => n
  end.
Definition set_node_textContent (n : node) (s : string) : node :=
  match n with
  | Element tag c _ => Element tag c (text_nodes s)
  | _ => n
  end.

Definition alert (text : string) : M unit := emit (Alert text).
Definition console_error (label : string) (e : js_error) : M unit :=
  emit (ConsoleError label e).
Definition preventDefault : M unit := emit PreventDefault.

(** [fetch(url, init)] with the chain [c] attached to the promise. *)
Definition fetch (req : request) (c : chain) : M unit :=
  fun w => (Normal tt, World (page w) (log w ++ [Fetch req]) (in_flight w ++ [c])).

(** An element is hidden when it carries Bootstrap's [d-none] class. *)
Definition hidden (st : element_state) : bool := mem "d-none" (classList st).

End Page.

(** ** The controller *)

Module Controller.
Import JSNumber JSValue Page.
Local Open Scope js_scope.

(** *** Promises

    A promise that has settled is a statement that has run: it yields a
    value or a reason.  [then_], [catch_] and [finally_] attach the next
    callback of a chain. *)

Definition settled {A} (o : completion A) : M A := fun w => (o, w).

Definition then_ {A B} (p : M A) (f : A -> M B) : M B := bind p f.

Definition catch_ {A} (p : M A) (h : js_error -> M A) : M A :=
  fun w =>
    match p w with
    | (Normal a, w') => (Normal a, w')
    | (Throw e, w') => h e w'
    end.

Definition finally_ {A} (p : M A) (h : M unit) : M A :=
  fun w =>
    match p w with
    | (o, w') =>
        match h w' with
        | (Normal _, w'') => (o, w'')
        | (Throw e, w'') => (Throw e, w'')
        end
    end.

(** The statements of a block, run in program order. *)
Fixpoint block (body : list (M unit)) : M unit :=
  match body with
  | [] => ret tt
  | statement :: rest => statement ;; block rest
  end.

(** [list.forEach(f)] *)
Fixpoint forEach (items : list json) (f : json -> M unit) : M unit :=
  match items with
  | [] => ret tt
  | x :: rest => f x ;; forEach rest f
  end.

(** *** Texts the script writes *)

(** [<div class="alert alert-KIND">BODY</div>] *)
Definition alert_div (kind body : string) : string :=
  "<div class=" ++ dquote ++ "alert alert-" ++ kind ++ dquote ++ ">"
  ++ body ++ "</div>".

Definition post_headers : list (string * string) :=
  [("Content-Type", "application/json")].

(** [score * 100], for the number [score] converts to *)
Definition times_100 (score : number) : number :=
  mul score (of_Z 100).

(** [(score * 100).toFixed(1)] *)
Definition percent (score : number) : string :=
  toFixed 1 (times_100 score).

(** The text of a source's list item, for the string and the number that
    [filename] and [score] convert to. *)
Definition source_text (filename : string) (score : number) : string :=
  filename ++ " (Relevanz: " ++ percent score ++ "%)".

Definition list_item (text : string) : node :=
  let li := createElement "li" in
  let li := set_className li "list-group-item" in
  set_node_textContent li text.

Definition no_sources_text : string := "Keine spezifischen Quellen gefunden.".

Section Engine.

(** The message of a TypeError is worded by the engine that runs the
    script. *)
Variable wording : type_error -> string.

Definition TypeError (t : type_error) : js_error :=
  JsError "TypeError" (wording t).

(** [v.k], for the property names the script reads ([success], [message],
    [answer], [sources], [length], [filename], [score]; none of them is an
    array index or inherited from a prototype). *)
Definition get (v : json) (k : string) : M JSValue.value :=
  match v with
  | JNull => throw (TypeError (ReadOfNull k))
  | JObj fields => ret (lookup k fields)
  | JArr items =>
      ret (if String.eqb k "length"
           then Some (JNum (of_Z (Z.of_nat (List.length items)))) else None)
  | JStr s =>
      ret (if String.eqb k "length"
           then Some (JNum (of_Z (Z.of_nat (String.length s)))) else None)
  | JBool _ | JNum _ => ret None
  end.

(** The conversions the script applies to a value it has read: a template
    literal and [alert] convert to a string, [*] and [>] to a number, the
    [textContent] setter to a string with [null] as the empty string.  Each
    throws a TypeError where the value converts to no primitive value. *)
Definition as_string (v : JSValue.value) : M string :=
  match ToString v with
  | Some text => ret text
  | None => throw (TypeError NotPrimitive)
  end.

Definition as_number (v : JSValue.value) : M number :=
  match ToNumber v with
  | Some x => ret x
  | None => throw (TypeError NotPrimitive)
  end.

Definition as_text (v : JSValue.value) : M string :=
  match text_of v with
  | Some text => ret text
  | None => throw (TypeError NotPrimitive)
  end.

(** [v.length > 0], for a truthy [v] *)
Definition length_positive (v : json) : M bool :=
  len <- get v "length" ;; n <- as_number len ;; ret (gt_zero n).

(** [v.forEach(f)]: only an array has the method. *)
Definition call_forEach (v : json) (f : json -> M unit) : M unit :=
  match v with
  | JArr items => forEach items f
  | _ => throw (TypeError (NotAFunction "data.sources.forEach"))
  end.

(** **** The index button (lines 13-41) *)

(** The statements of the click handler, in the order of the source
    (lines 15, 16 and 19). *)
Definition indexButton_click_body : list (M unit) :=
  [ set_disabled indexButton true;
    set_innerHTML indexStatus (alert_div "info" "Indexierung gestartet...");
    fetch (Request "/api/index-documents" "POST" post_headers None) IndexChain ].

Definition indexButton_click : M unit :=
  block indexButton_click_body.

Definition index_then (data : json) : M unit :=
  success <- get data "success" ;;
  if truthy success then
    message <- get data "message" ;;
    text <- as_string message ;;
    set_innerHTML indexStatus (alert_div "success" text)
  else
    message <- get data "message" ;;
    text <- as_string message ;;
    set_innerHTML indexStatus (alert_div "danger" text).

Definition index_catch (error : js_error) : M unit :=
  set_innerHTML indexStatus
    (alert_div "danger" ("Fehler: " ++ error_message error)) ;;
  console_error "Fehler:" error.

Definition index_finally : M unit :=
  set_disabled indexButton false.

(** The chain on the promise of the parsed response. *)
Definition index_chain (response : completion json) : M unit :=
  finally_ (catch_ (then_ (settled response) index_then) index_catch)
           index_finally.

(** **** The question form (lines 44-100) *)

Definition questionForm_submit : M unit :=
  preventDefault ;;
  text <- get_value questionInput ;;
  let question := trim text in
  if is_empty question then
    alert "Bitte geben Sie eine Frage ein."
  else
    classList_remove loadingIndicator "d-none" ;;
    classList_add answerSection "d-none" ;;
    fetch (Request "/api/ask" "POST" post_headers
             (Some (JObj [("question", JStr question)]))) AskChain.

Definition append_source (source : json) : M unit :=
  filename <- get source "filename" ;;
  name <- as_string filename ;;
  score <- get source "score" ;;
  x <- as_number score ;;
  appendChild sourcesList (list_item (source_text name x)).

Definition append_no_sources : M unit :=
  appendChild sourcesList (list_item no_sources_text).

Definition show_sources (data : json) : M unit :=
  sources <- get data "sources" ;;
  match sources with
  | Some v =>
      if truthy sources then
        positive <- length_positive v ;;
        if positive : bool then call_forEach v append_source
        else append_no_sources
      else append_no_sources
  | None => append_no_sources
  end.

Definition ask_then (data : json) : M unit :=
  success <- get data "success" ;;
  if truthy success then
    answer <- get data "answer" ;;
    text <- as_text answer ;;
    set_textContent answerContent text ;;
    set_innerHTML sourcesList EmptyString ;;
    show_sources data ;;
    classList_remove answerSection "d-none"
  else
    message <- get data "message" ;;
    text <- as_string message ;;
    alert ("Fehler: " ++ text).

Definition ask_catch (error : js_error) : M unit :=
  alert ("Fehler bei der Anfrage: " ++ error_message error) ;;
  console_error "Fehler:" error.

Definition ask_finally : M unit :=
  classList_add loadingIndicator "d-none".

Definition ask_chain (response : completion json) : M unit :=
  finally_ (catch_ (then_ (settled response) ask_then) ask_catch)
           ask_finally.

(** **** The event loop

    The page reacts to four kinds of events.  A disabled button receives
    no click; a response settles one of the requests in flight, and the
    callbacks of its chain run before any other event is handled. *)

Inductive event : Type :=
  | Click
  | Input (text : string)
  | Submit
  | Response (i : nat) (outcome : completion json).

Fixpoint remove_nth {A} (i : nat) (l : list A) : list A :=
  match l, i with
  | [], _ => []
  | _ :: l', O => l'
  | x :: l', S i' => x :: remove_nth i' l'
  end.

Definition chain_of (c : chain) : completion json -> M unit :=
  match c with
  | IndexChain => index_chain
  | AskChain => ask_chain
  end.

Definition type_text (text : string) : M unit :=
  modify questionInput
    (fun st => ElementState (disabled st) text (classList st) (childNodes st)).

Definition dispatch (ev : event) (w : world) : world :=
  match ev with
  | Click =>
      if disabled (page w indexButton) then w else exec indexButton_click w
  | Input text => exec (type_text text) w
  | Submit => exec questionForm_submit w
  | Response i outcome =>
      match nth_error (in_flight w) i with
      | Some c =>
          exec (chain_of c outcome)
               (World (page w) (log w) (remove_nth i (in_flight w)))
      | None => w
      end
  end.

Definition run (events : list event) (w : world) : world :=
  fold_left (fun w ev => dispatch ev w) events w.

End Engine.

(** *** Responses of the two endpoints, as the interface table gives them *)

Definition index_response (success : bool) (message : string) : json :=
  JObj [("success", JBool success); ("message", JStr message)].

Definition source_json (src : string * number) : json :=
  JObj [("filename", JStr (fst src)); ("score", JNum (snd src))].

Definition answer_response (answer : string) (sources : list (string * number)) : json :=
  JObj [("success", JBool true); ("answer", JStr answer);
        ("sources", JArr (map source_json sources))].

Definition failure_response (message : string) : json :=
  JObj [("success", JBool false); ("message", JStr message)].

(** The list item the script renders for a source. *)
Definition source_item (src : string * number) : node :=
  list_item (fst src ++ " (Relevanz: " ++ toFixed 1 (mul (snd src) (of_Z 100)) ++ "%)").

(** *** Footprints *)

(** [m] changes the state of no element outside [S]. *)
Definition writes_only {A} (S : element -> bool) (m : M A) : Prop :=
  forall w el, S el = false -> page (exec m w) el = page w el.

(** [m] issues no request. *)
Definition no_request {A} (m : M A) : Prop :=
  forall w, in_flight (exec m w) = in_flight w.

Definition index_elements (el : element) : bool :=
  match el with indexButton | indexStatus => true | _ => false end.

Definition answer_elements (el : element) : bool :=
  match el with
  | loadingIndicator | answerSection | answerContent | sourcesList => true
  | _ => false
  end.

(** *** The guard of the index button *)

Fixpoint index_requests (l : list chain) : nat :=
  match l with
  | [] => O
  | IndexChain :: l' => S (index_requests l')
  | AskChain :: l' => index_requests l'
  end.

(** No index request is in flight, or exactly one is and the button is
    disabled. *)
Definition index_guard (w : world) : Prop :=
  index_requests (in_flight w) = O \/
  (index_requests (in_flight w) = 1%nat /\ disabled (page w indexButton) = true).

(** *** Examples *)

(** The wording of V8. *)
Definition v8_wording (t : type_error) : string :=
  match t with
  | ReadOfNull prop => "Cannot read properties of null (reading '" ++ prop ++ "')"
  | NotAFunction expr => expr ++ " is not a function"
  | NotPrimitive => "Cannot convert object to primitive value"
  end.

(** A page that has just loaded, with [question] typed into the field: the
    loading indicator and the answer section are hidden, nothing is in
    flight. *)
Definition plain : element_state := ElementState false EmptyString [] [].
Definition concealed : element_state := ElementState false EmptyString ["d-none"] [].
Definition loaded_page (question : string) : world :=
  World (Dom plain plain plain (ElementState false question [] [])
             concealed concealed plain plain)
        [] [].

(** *** Requests and effects, counted *)

Fixpoint ask_requests (l : list chain) : nat :=
  match l with
  | [] => O
  | AskChain :: l' => S (ask_requests l')
  | IndexChain :: l' => ask_requests l'
  end.

(** The requests among the effects, oldest first. *)
Fixpoint fetches (l : list effect) : list request :=
  match l with
  | [] => []
  | Fetch r :: l' => r :: fetches l'
  | _ :: l' => fetches l'
  end.

(** The world in which a block issues its first request: the statements
    before the one that adds a request to the effects have run, that one
    has not.  [None] if the block issues no request. *)
Fixpoint before_request (body : list (M unit)) (w : world) : option world :=
  match body with
  | [] => None
  | statement :: rest =>
      match statement w with
      | (o, w') =>
          if (List.length (fetches (log w)) <? List.length (fetches (log w')))%nat
          then Some w
          else match o with
               | Normal _ => before_request rest w'
               | Throw _ => None
               end
      end
  end.

(** The alerts among the effects, oldest first. *)
Fixpoint alerts (l : list effect) : list string :=
  match l with
  | [] => []
  | Alert t :: l' => t :: alerts l'
  | _ :: l' => alerts l'
  end.

(** The two requests the script makes (lines 19-24 and 59-65). *)
Definition index_request : request :=
  Request "/api/index-documents" "POST" post_headers None.
Definition ask_request (question : string) : request :=
  Request "/api/ask" "POST" post_headers (Some (JObj [("question", JStr question)])).

Definition first_char (s : string) : option ascii :=
  match s with
  | EmptyString => None
  | String c _ => Some c
  end.

Fixpoint last_char (s : string) : option ascii :=
  match s with
  | EmptyString => None
  | String c EmptyString => Some c
  | String _ s' => last_char s'
  end.

(** A text that is not empty and has no white space at either end. *)
Definition clean_text (s : string) : Prop :=
  (exists c, first_char s = Some c /\ is_white_space c = false) /\
  (exists c, last_char s = Some c /\ is_white_space c = false).

(** A request as the script makes them: the index request, or a question
    request whose question is a clean text. *)
Definition script_request (r : request) : Prop :=
  r = index_request \/ exists q, clean_text q /\ r = ask_request q.

(** The index button is enabled with no index request in flight, or
    disabled with exactly one. *)
Definition index_idle_or_busy (w : world) : Prop :=
  (index_requests (in_flight w) = O /\ disabled (page w indexButton) = false) \/
  (index_requests (in_flight w) = 1%nat /\ disabled (page w indexButton) = true).

(** *** What a statement reads *)

(** [w1] and [w2] have the same state at the elements of [S]. *)
Definition agree (S : element -> bool) (w1 w2 : world) : Prop :=
  forall el, S el = true -> page w1 el = page w2 el.

(** The outcome of [m], and what it leaves at the elements of [S], depend
    on the page only through the elements of [S]. *)
Definition reads_only {A} (S : element -> bool) (m : M A) : Prop :=
  forall w1 w2, agree S w1 w2 ->
    fst (m w1) = fst (m w2) /\ agree S (snd (m w1)) (snd (m w2)).

(** [m] appends no request to the effects. *)
Definition no_fetch {A} (m : M A) : Prop :=
  forall w, fetches (log (exec m w)) = fetches (log w).

End Controller.

(** * Properties *)

Import JSNumber JSValue Page Controller.

(** ** Decimal digits *)

Lemma string_app_assoc (a b c : string) : (a ++ b) ++ c = a ++ (b ++ c).
Proof. induction a as [|x a IH]; simpl; [reflexivity | now rewrite IH]. Qed.

Lemma string_app_nil_r (a : string) : a ++ EmptyString = a.
Proof. induction a as [|x a IH]; simpl; [reflexivity | now rewrite IH]. Qed.

Lemma string_length_app (a b : string) :
  String.length (a ++ b) = (String.length a + String.length b)%nat.
Proof. induction a as [|x a IH]; simpl; [reflexivity | now rewrite IH]. Qed.

Lemma substring_prefix (a b : string) :
  substring 0 (String.length a) (a ++ b) = a.
Proof.
  induction a as [|x a IH]; simpl.
  - destruct b; reflexivity.
  - now rewrite IH.
Qed.

Lemma substring_all (b : string) : substring 0 (String.length b) b = b.
Proof. induction b as [|x b IH]; simpl; [reflexivity | now rewrite IH]. Qed.

Lemma substring_suffix (a b : string) :
  substring (String.length a) (String.length b) (a ++ b) = b.
Proof.
  induction a as [|x a IH]; simpl.
  - apply substring_all.
  - exact IH.
Qed.

Lemma digits_fuel_acc (fuel : nat) : forall n acc,
  digits_fuel fuel n acc = digits_fuel fuel n EmptyString ++ acc.
Proof.
  induction fuel as [|fuel IH]; intros n acc; simpl.
  - reflexivity.
  - destruct (n / 10 =? 0).
    + reflexivity.
    + rewrite IH.
      rewrite (IH _ (String _ EmptyString)).
      rewrite string_app_assoc. reflexivity.
Qed.

Lemma tenth_below (n : Z) (k : nat) :
  0 <= n < 2 ^ Z.of_nat (S k) -> 0 <= n / 10 < 2 ^ Z.of_nat k.
Proof.
  intros [H0 H1]. split.
  - apply Z.div_pos; lia.
  - rewrite Nat2Z.inj_succ, Z.pow_succ_r in H1 by lia.
    apply Z.div_lt_upper_bound; lia.
Qed.

(** More fuel than binary digits is as good as any. *)
Lemma digits_fuel_enough (f : nat) : forall f' n acc,
  0 <= n < 2 ^ Z.of_nat (S f) -> 0 <= n < 2 ^ Z.of_nat (S f') ->
  digits_fuel (S f) n acc = digits_fuel (S f') n acc.
Proof.
  induction f as [|f IH]; intros f' n acc Hf Hf'.
  - assert (n / 10 = 0) as E.
    { apply tenth_below in Hf. simpl in Hf. lia. }
    simpl. rewrite E. reflexivity.
  - cbn [digits_fuel]. destruct (n / 10 =? 0) eqn:E; [reflexivity|].
    apply Z.eqb_neq in E.
    apply tenth_below in Hf. apply tenth_below in Hf'.
    destruct f' as [|f'].
    + simpl in Hf'. lia.
    + apply IH; assumption.
Qed.

Lemma log2_fuel (n : Z) : 0 <= n -> 0 <= n < 2 ^ Z.of_nat (S (Z.to_nat (Z.log2 n))).
Proof.
  intros H. split; [assumption|].
  rewrite Nat2Z.inj_succ, Z2Nat.id by apply Z.log2_nonneg.
  destruct (Z.eq_dec n 0) as [->|Hn]; [reflexivity|].
  apply Z.log2_spec. lia.
Qed.

Lemma decimal_digits_small (n : Z) :
  0 <= n < 10 -> decimal_digits n = String (digit_char n) EmptyString.
Proof.
  intros H. unfold decimal_digits. cbn [digits_fuel].
  rewrite Z.div_small, Z.mod_small by lia. reflexivity.
Qed.

Lemma decimal_digits_step (n : Z) :
  10 <= n ->
  decimal_digits n = decimal_digits (n / 10) ++ String (digit_char (n mod 10)) EmptyString.
Proof.
  intros H. unfold decimal_digits at 1. cbn [digits_fuel].
  assert (0 < n / 10) as Hq by (apply Z.div_str_pos; lia).
  destruct (n / 10 =? 0) eqn:E; [apply Z.eqb_eq in E; lia|].
  rewrite digits_fuel_acc.
  f_equal.
  pose proof (log2_fuel n ltac:(lia)) as Hn. apply tenth_below in Hn.
  pose proof (log2_fuel (n / 10) ltac:(lia)) as Hq'.
  destruct (Z.to_nat (Z.log2 n)) as [|k] eqn:Ek.
  - simpl in Hn. lia.
  - unfold decimal_digits. apply digits_fuel_enough; assumption.
Qed.

Lemma digit_char_code (d : Z) :
  0 <= d < 10 -> Z.of_nat (nat_of_ascii (digit_char d)) = 48 + d.
Proof.
  intros H. unfold digit_char.
  rewrite nat_ascii_embedding by lia. lia.
Qed.

Lemma digit_char_is_digit (d : Z) : 0 <= d < 10 -> is_digit (digit_char d) = true.
Proof.
  intros H. pose proof (digit_char_code d H) as E.
  unfold is_digit. apply andb_true_intro. split; apply Nat.leb_le; lia.
Qed.

Lemma all_digits_app (a b : string) :
  all_digits (a ++ b) = all_digits a && all_digits b.
Proof.
  induction a as [|x a IH]; simpl; [reflexivity|].
  now rewrite IH, andb_assoc.
Qed.

Lemma digits_value_app (a : string) : forall b acc,
  digits_value (a ++ b) acc = digits_value b (digits_value a acc).
Proof. induction a as [|x a IH]; intros; simpl; [reflexivity | apply IH]. Qed.

(** Induction on a non-negative integer by its decimal digits. *)
Lemma decimal_induction (P : Z -> Prop) :
  (forall n, 0 <= n < 10 -> P n) ->
  (forall n, 10 <= n -> P (n / 10) -> P n) ->
  forall n, 0 <= n -> P n.
Proof.
  intros Hsmall Hstep n. induction n as [n IH] using (well_founded_induction (Z.lt_wf 0)).
  intros Hn.
  destruct (Z_lt_le_dec n 10) as [Hlt|Hge].
  - apply Hsmall. lia.
  - apply Hstep; [assumption|].
    assert (0 <= n / 10 < n) as Hq
      by (split; [apply Z.div_pos; lia | apply Z.div_lt; lia]).
    apply IH; lia.
Qed.

Lemma decimal_digits_all_digits (n : Z) : 0 <= n -> all_digits (decimal_digits n) = true.
Proof.
  revert n. apply decimal_induction; intros n Hn.
  - rewrite decimal_digits_small by assumption. cbn [all_digits].
    now rewrite digit_char_is_digit.
  - intros IH. rewrite decimal_digits_step, all_digits_app, IH by assumption.
    cbn [all_digits andb]. rewrite digit_char_is_digit; [reflexivity|].
    apply Z.mod_pos_bound. lia.
Qed.

(** The digits written for [n] read back as [n]. *)
Lemma decimal_digits_value (n : Z) : 0 <= n -> digits_value (decimal_digits n) 0 = n.
Proof.
  revert n. apply decimal_induction; intros n Hn.
  - rewrite decimal_digits_small by assumption. cbn [digits_value].
    rewrite digit_char_code by assumption. lia.
  - intros IH. rewrite decimal_digits_step, digits_value_app, IH by assumption.
    cbn [digits_value]. rewrite digit_char_code by (apply Z.mod_pos_bound; lia).
    pose proof (Z.div_mod n 10). lia.
Qed.

Lemma decimal_digits_nonempty (n : Z) : 0 <= n -> (1 <= String.length (decimal_digits n))%nat.
Proof.
  intros Hn. destruct (Z_lt_le_dec n 10).
  - rewrite decimal_digits_small by lia. simpl. lia.
  - rewrite decimal_digits_step, string_length_app by assumption. simpl. lia.
Qed.

(** ** [toFixed(1)] *)

Lemma fixed_digits_one (n : Z) :
  0 <= n ->
  fixed_digits 1 n =
  decimal_digits (n / 10) ++ "." ++ String (digit_char (n mod 10)) EmptyString.
Proof.
  intros Hn. unfold fixed_digits.
  destruct (Z_lt_le_dec n 10) as [Hlt|Hge].
  - rewrite Z.div_small, Z.mod_small by lia.
    assert ((if n =? 0 then "0" else decimal_digits n)
            = String (digit_char n) EmptyString) as ->.
    { destruct (n =? 0) eqn:E.
      - apply Z.eqb_eq in E. subst n. reflexivity.
      - apply decimal_digits_small. lia. }
    reflexivity.
  - destruct (n =? 0) eqn:E; [apply Z.eqb_eq in E; lia|].
    pose proof (decimal_digits_nonempty (n / 10) ltac:(apply Z.div_pos; lia)) as Hlen.
    rewrite decimal_digits_step by assumption.
    set (q := decimal_digits (n / 10)) in *.
    set (d := String (digit_char (n mod 10)) EmptyString).
    assert (String.length (q ++ d) = S (String.length q)) as Hqd
      by (rewrite string_length_app; subst d; simpl; lia).
    destruct (String.length (q ++ d) <=? 1)%nat eqn:L; [apply Nat.leb_le in L; lia|].
    rewrite Hqd.
    replace (S (String.length q) - 1)%nat with (String.length q) by lia.
    rewrite substring_prefix.
    change 1%nat with (String.length d).
    rewrite substring_suffix. reflexivity.
Qed.

Lemma nearest_scaled_nonneg (f : nat) (m : positive) (e : Z) :
  0 <= nearest_scaled f m e.
Proof.
  unfold nearest_scaled. destruct (0 <=? e) eqn:E.
  - apply Z.leb_le in E.
    assert (0 < 2 ^ e) by (apply Z.pow_pos_nonneg; lia).
    assert (0 < 10 ^ Z.of_nat f) by (apply Z.pow_pos_nonneg; lia).
    apply Z.mul_nonneg_nonneg; [apply Z.mul_nonneg_nonneg|]; lia.
  - apply Z.leb_gt in E.
    assert (0 < 2 ^ (- e)) by (apply Z.pow_pos_nonneg; lia).
    assert (0 < 2 ^ (- e + 1)) by (apply Z.pow_pos_nonneg; lia).
    assert (0 < 10 ^ Z.of_nat f) by (apply Z.pow_pos_nonneg; lia).
    apply Z.div_pos; [|assumption].
    apply Z.add_nonneg_nonneg; [apply Z.mul_nonneg_nonneg|]; lia.
Qed.

(** [toFixed(1)] rounds to a nearest tenth. *)
Lemma nearest_scaled_nearest (s : bool) (m : positive) (e : Z) :
  nearest_tenth (S754_finite s m e) (nearest_scaled 1 m e).
Proof.
  unfold nearest_tenth, nearest_scaled.
  change (10 ^ Z.of_nat 1) with 10.
  destruct (0 <=? e) eqn:E.
  - apply Z.leb_le in E.
    rewrite (Z.max_r (- e) 0), (Z.max_l e 0) by lia. change (2 ^ 0) with 1.
    replace (Z.pos m * 2 ^ e * 10 * 1 - 10 * Z.pos m * 2 ^ e) with 0 by ring.
    simpl. lia.
  - apply Z.leb_gt in E.
    rewrite (Z.max_l (- e) 0), (Z.max_r e 0) by lia. change (2 ^ 0) with 1.
    assert (0 < 2 ^ (- e)) as Hk by (apply Z.pow_pos_nonneg; lia).
    rewrite Z.pow_add_r by lia. change (2 ^ 1) with 2.
    set (k := 2 ^ (- e)) in *.
    pose proof (Z.div_mod (2 * Z.pos m * 10 + k) (k * 2) ltac:(lia)) as Hdm.
    pose proof (Z.mod_pos_bound (2 * Z.pos m * 10 + k) (k * 2) ltac:(lia)) as Hb.
    set (t := (2 * Z.pos m * 10 + k) / (k * 2)) in *.
    lia.
Qed.

Lemma digit_not_minus (c : ascii) : is_digit c = true -> Ascii.eqb c "-" = false.
Proof.
  intros H. destruct (Ascii.eqb_spec c "-") as [->|]; [discriminate H | reflexivity].
Qed.

Lemma digits_point_digit_shape (ds : string) (d : ascii) : forall seen,
  all_digits ds = true -> is_digit d = true ->
  (seen = true \/ ds <> EmptyString) ->
  digits_point_digit (ds ++ "." ++ String d EmptyString) seen = true.
Proof.
  induction ds as [|c ds IH]; intros seen Hds Hd Hseen.
  - destruct Hseen as [->|Hne]; [|congruence].
    cbn. rewrite Hd. reflexivity.
  - cbn [all_digits] in Hds. apply andb_prop in Hds as [Hc Hds].
    cbn [append digits_point_digit]. rewrite Hc.
    apply IH; auto.
Qed.

Lemma one_decimal_shape (neg : bool) (q r : Z) :
  0 <= q -> 0 <= r < 10 ->
  is_one_decimal ((if neg then "-" else EmptyString) ++ decimal_digits q ++ "."
                  ++ String (digit_char r) EmptyString) = true.
Proof.
  intros Hq Hr.
  pose proof (decimal_digits_all_digits q Hq) as Hall.
  pose proof (decimal_digits_nonempty q Hq) as Hlen.
  pose proof (digit_char_is_digit r Hr) as Hd.
  destruct neg.
  - cbn [append is_one_decimal]. change (Ascii.eqb "-" "-") with true. cbv iota.
    apply digits_point_digit_shape; auto.
    right. intros E. rewrite E in Hlen. simpl in Hlen. lia.
  - cbn [append].
    destruct (decimal_digits q) as [|c ds] eqn:E; [simpl in Hlen; lia|].
    cbn [append is_one_decimal].
    cbn [all_digits] in Hall. apply andb_prop in Hall as [Hc Hds].
    rewrite (digit_not_minus c Hc).
    apply (digits_point_digit_shape (String c ds) (digit_char r) false); auto.
    + cbn [all_digits]. now rewrite Hc, Hds.
    + right. discriminate.
Qed.

(** In its fixed-point range, [toFixed(1)] writes the magnitude in tenths,
    rounded to a nearest one, with a point before the last digit. *)
Lemma toFixed_one_fixed_range (x : number) :
  fixed_range x = true ->
  toFixed 1 x = minus_sign x ++ decimal_digits (tenths x / 10) ++ "."
                ++ String (digit_char (tenths x mod 10)) EmptyString.
Proof.
  destruct x as [s|s| |s m e]; cbn [fixed_range]; try discriminate; intros H.
  - reflexivity.
  - apply negb_true_iff in H. cbn [toFixed tenths minus_sign]. rewrite H.
    rewrite fixed_digits_one by apply nearest_scaled_nonneg.
    destruct s; reflexivity.
Qed.

Lemma toFixed_one_spec (x : number) :
  fixed_range x = true ->
  toFixed 1 x =
    minus_sign x ++ decimal_digits (tenths x / 10) ++ "."
    ++ String (digit_char (tenths x mod 10)) EmptyString /\
  is_one_decimal (toFixed 1 x) = true /\
  digits_value (decimal_digits (tenths x / 10)) 0 = tenths x / 10 /\
  nearest_tenth x (tenths x).
Proof.
  intros H.
  assert (0 <= tenths x) as Ht
    by (destruct x; cbn [tenths]; try lia; apply nearest_scaled_nonneg).
  assert (0 <= tenths x / 10) as Hq by (apply Z.div_pos; lia).
  pose proof (toFixed_one_fixed_range x H) as E.
  split; [exact E|]. split; [|split].
  - rewrite E.
    replace (minus_sign x)
      with (if match x with S754_finite true _ _ => true | _ => false end
            then "-" else EmptyString)
      by (destruct x as [| | |[] ? ?]; reflexivity).
    apply one_decimal_shape; [assumption | apply Z.mod_pos_bound; lia].
  - apply decimal_digits_value, Hq.
  - destruct x as [| | |sg m e]; cbn [nearest_tenth tenths fixed_range] in *;
      try reflexivity; try discriminate H.
    apply (nearest_scaled_nearest sg).
Qed.

(** ** Footprints of the statements *)

Lemma state_of_update (d : dom) (el el' : element) (st : element_state) :
  (update d el st) el' = if element_eqb el' el then st else d el'.
Proof. destruct el, el'; reflexivity. Qed.

Lemma exec_bind {A B} (m : M A) (k : A -> M B) (w : world) :
  exec (bind m k) w =
  match m w with
  | (Normal a, w') => exec (k a) w'
  | (Throw _, w') => w'
  end.
Proof. unfold exec, bind. destruct (m w) as [[a|e] w']; reflexivity. Qed.

Lemma exec_finally {A} (p : M A) (h : M unit) (w : world) :
  exec (finally_ p h) w = exec h (exec p w).
Proof.
  unfold exec, finally_. destruct (p w) as [o w']. simpl.
  destruct (h w') as [[u|e] w'']; reflexivity.
Qed.

Lemma exec_catch {A} (p : M A) (h : js_error -> M A) (w : world) :
  exec (catch_ p h) w =
  match p w with
  | (Normal _, w') => w'
  | (Throw e, w') => exec (h e) w'
  end.
Proof. unfold exec, catch_. destruct (p w) as [[a|e] w']; reflexivity. Qed.

Section Footprints.
Variable S : element -> bool.

Lemma writes_ret {A} (a : A) : writes_only S (ret a).
Proof. intros w el _. reflexivity. Qed.

Lemma writes_throw {A} (e : js_error) : writes_only S (@throw A e).
Proof. intros w el _. reflexivity. Qed.

Lemma writes_settled {A} (o : completion A) : writes_only S (settled o).
Proof. intros w el _. reflexivity. Qed.

Lemma writes_bind {A B} (m : M A) (k : A -> M B) :
  writes_only S m -> (forall a, writes_only S (k a)) -> writes_only S (bind m k).
Proof.
  intros Hm Hk w el Hel. rewrite exec_bind.
  specialize (Hm w el Hel). unfold exec in Hm.
  destruct (m w) as [[a|e] w']; simpl in Hm.
  - rewrite (Hk a w' el Hel). exact Hm.
  - exact Hm.
Qed.

Lemma writes_catch {A} (p : M A) (h : js_error -> M A) :
  writes_only S p -> (forall e, writes_only S (h e)) -> writes_only S (catch_ p h).
Proof.
  intros Hp Hh w el Hel. rewrite exec_catch.
  specialize (Hp w el Hel). unfold exec in Hp.
  destruct (p w) as [[a|e] w']; simpl in Hp.
  - exact Hp.
  - rewrite (Hh e w' el Hel). exact Hp.
Qed.

Lemma writes_finally {A} (p : M A) (h : M unit) :
  writes_only S p -> writes_only S h -> writes_only S (finally_ p h).
Proof.
  intros Hp Hh w el Hel. rewrite exec_finally.
  rewrite (Hh _ el Hel). apply Hp, Hel.
Qed.

Lemma writes_modify (el : element) (f : element_state -> element_state) :
  S el = true -> writes_only S (modify el f).
Proof.
  intros Hin w el' Hout. unfold exec, modify. simpl.
  rewrite state_of_update.
  destruct el, el'; try reflexivity; congruence.
Qed.

Lemma writes_emit (e : effect) : writes_only S (emit e).
Proof. intros w el _. reflexivity. Qed.

Lemma writes_fetch (req : request) (c : chain) : writes_only S (fetch req c).
Proof. intros w el _. reflexivity. Qed.

Lemma writes_get_value (el : element) : writes_only S (get_value el).
Proof. intros w el' _. reflexivity. Qed.

Lemma writes_forEach (items : list json) (f : json -> M unit) :
  (forall x, writes_only S (f x)) -> writes_only S (forEach items f).
Proof.
  intros Hf. induction items as [|x items IH]; cbn [forEach].
  - apply writes_ret.
  - apply writes_bind; auto.
Qed.

Lemma writes_get (wording : type_error -> string) (v : json) (k : string) :
  writes_only S (get wording v k).
Proof. destruct v; intros w el _; reflexivity. Qed.

Lemma writes_as_string (wording : type_error -> string) (v : JSValue.value) :
  writes_only S (as_string wording v).
Proof. unfold as_string. destruct (ToString v); intros w el _; reflexivity. Qed.

Lemma writes_as_number (wording : type_error -> string) (v : JSValue.value) :
  writes_only S (as_number wording v).
Proof. unfold as_number. destruct (ToNumber v); intros w el _; reflexivity. Qed.

Lemma writes_as_text (wording : type_error -> string) (v : JSValue.value) :
  writes_only S (as_text wording v).
Proof. unfold as_text. destruct (text_of v); intros w el _; reflexivity. Qed.

End Footprints.

Lemma quiet_ret {A} (a : A) : no_request (ret a).
Proof. intros w. reflexivity. Qed.

Lemma quiet_throw {A} (e : js_error) : no_request (@throw A e).
Proof. intros w. reflexivity. Qed.

Lemma quiet_settled {A} (o : completion A) : no_request (settled o).
Proof. intros w. reflexivity. Qed.

Lemma quiet_bind {A B} (m : M A) (k : A -> M B) :
  no_request m -> (forall a, no_request (k a)) -> no_request (bind m k).
Proof.
  intros Hm Hk w. rewrite exec_bind.
  specialize (Hm w). unfold exec in Hm.
  destruct (m w) as [[a|e] w']; simpl in Hm.
  - rewrite (Hk a w'). exact Hm.
  - exact Hm.
Qed.

Lemma quiet_catch {A} (p : M A) (h : js_error -> M A) :
  no_request p -> (forall e, no_request (h e)) -> no_request (catch_ p h).
Proof.
  intros Hp Hh w. rewrite exec_catch.
  specialize (Hp w). unfold exec in Hp.
  destruct (p w) as [[a|e] w']; simpl in Hp.
  - exact Hp.
  - rewrite (Hh e w'). exact Hp.
Qed.

Lemma quiet_finally {A} (p : M A) (h : M unit) :
  no_request p -> no_request h -> no_request (finally_ p h).
Proof. intros Hp Hh w. rewrite exec_finally, Hh. apply Hp. Qed.

Lemma quiet_modify (el : element) (f : element_state -> element_state) :
  no_request (modify el f).
Proof. intros w. reflexivity. Qed.

Lemma quiet_emit (e : effect) : no_request (emit e).
Proof. intros w. reflexivity. Qed.

Lemma quiet_forEach (items : list json) (f : json -> M unit) :
  (forall x, no_request (f x)) -> no_request (forEach items f).
Proof.
  intros Hf. induction items as [|x items IH]; cbn [forEach].
  - apply quiet_ret.
  - apply quiet_bind; auto.
Qed.

Lemma quiet_get (wording : type_error -> string) (v : json) (k : string) :
  no_request (get wording v k).
Proof. destruct v; intros w; reflexivity. Qed.

Lemma quiet_as_string (wording : type_error -> string) (v : JSValue.value) :
  no_request (as_string wording v).
Proof. unfold as_string. destruct (ToString v); intros w; reflexivity. Qed.

Lemma quiet_as_number (wording : type_error -> string) (v : JSValue.value) :
  no_request (as_number wording v).
Proof. unfold as_number. destruct (ToNumber v); intros w; reflexivity. Qed.

Lemma quiet_as_text (wording : type_error -> string) (v : JSValue.value) :
  no_request (as_text wording v).
Proof. unfold as_text. destruct (text_of v); intros w; reflexivity. Qed.

Create HintDb footprint.
#[local] Hint Resolve writes_ret writes_throw writes_settled writes_emit
  writes_fetch writes_get_value writes_get quiet_ret quiet_throw quiet_settled
  quiet_modify quiet_emit quiet_get
  writes_as_string writes_as_number writes_as_text
  quiet_as_string quiet_as_number quiet_as_text : footprint.

(** Walks through a statement of the script: binds, branches and the
    primitives. *)
Ltac footprint :=
  repeat first
    [ solve [auto with footprint]
    | match goal with |- forall _, _ => intro end
    | apply writes_bind | apply writes_catch | apply writes_finally
    | apply writes_forEach
    | apply quiet_bind | apply quiet_catch | apply quiet_finally
    | apply quiet_forEach
    | apply writes_modify; reflexivity
    | match goal with
      | |- writes_only _ (if ?b then _ else _) => destruct b
      | |- no_request (if ?b then _ else _) => destruct b
      | |- writes_only _ (match ?x with _ => _ end) => destruct x
      | |- no_request (match ?x with _ => _ end) => destruct x
      end ].

Section HandlerFootprints.
Variable wording : type_error -> string.

Lemma click_writes : writes_only index_elements indexButton_click.
Proof.
  unfold indexButton_click, indexButton_click_body, set_disabled, set_innerHTML.
  cbn [block]. footprint.
Qed.

Lemma index_chain_writes (o : completion json) :
  writes_only index_elements (index_chain wording o).
Proof.
  unfold index_chain, then_, index_then, index_catch, index_finally,
    set_disabled, set_innerHTML, console_error.
  footprint.
Qed.

Lemma index_chain_quiet (o : completion json) : no_request (index_chain wording o).
Proof.
  unfold index_chain, then_, index_then, index_catch, index_finally,
    set_disabled, set_innerHTML, console_error.
  footprint.
Qed.

Lemma submit_writes : writes_only answer_elements questionForm_submit.
Proof.
  unfold questionForm_submit, preventDefault, alert, classList_add, classList_remove.
  footprint.
Qed.

Lemma ask_then_writes (data : json) : writes_only answer_elements (ask_then wording data).
Proof.
  unfold ask_then, show_sources, length_positive, call_forEach, append_no_sources,
    append_source, set_textContent, set_innerHTML, appendChild, classList_remove, alert.
  footprint.
Qed.

Lemma ask_chain_writes (o : completion json) :
  writes_only answer_elements (ask_chain wording o).
Proof.
  unfold ask_chain, then_, ask_catch, ask_finally, classList_add, alert, console_error.
  pose proof ask_then_writes. footprint.
Qed.

Lemma ask_then_quiet (data : json) : no_request (ask_then wording data).
Proof.
  unfold ask_then, show_sources, length_positive, call_forEach, append_no_sources,
    append_source, set_textContent, set_innerHTML, appendChild, classList_remove, alert.
  footprint.
Qed.

Lemma ask_chain_quiet (o : completion json) : no_request (ask_chain wording o).
Proof.
  unfold ask_chain, then_, ask_catch, ask_finally, classList_add, alert, console_error.
  pose proof ask_then_quiet. footprint.
Qed.

End HandlerFootprints.

(** ** Effects, filtered *)

Lemma alerts_app (l l' : list effect) :
  alerts (l ++ l') = (alerts l ++ alerts l')%list.
Proof.
  induction l as [|e l IH]; [reflexivity|].
  destruct e; cbn [app alerts]; rewrite IH; reflexivity.
Qed.

Lemma fetches_app (l l' : list effect) :
  fetches (l ++ l') = (fetches l ++ fetches l')%list.
Proof.
  induction l as [|e l IH]; [reflexivity|].
  destruct e; cbn [app fetches]; rewrite IH; reflexivity.
Qed.


(** ** Rounding a positive integer to a Number *)

Lemma shr_1_m (r : shr_record) : 0 <= shr_m r -> shr_m (shr_1 r) = shr_m r / 2.
Proof.
  destruct r as [m rb sb]. cbn [shr_m]. intros H.
  destruct m as [|p|p]; [reflexivity | | lia].
  rewrite <- Z.div2_div. destruct p; reflexivity.
Qed.

Lemma iter_shr_1_m (n : positive) : forall r,
  0 <= shr_m r -> shr_m (iter_pos shr_1 n r) = shr_m r / 2 ^ Zpos n.
Proof.
  assert (forall a, 0 <= a -> 0 <= a / 2) as Hhalf
    by (intros; apply Z.div_pos; lia).
  assert (forall a k, 0 <= a -> 0 <= a / 2 ^ Zpos k) as Hpow
    by (intros; apply Z.div_pos; [lia | apply Z.pow_pos_nonneg; lia]).
  assert (forall k, 0 < 2 ^ Zpos k) as Hpos
    by (intros; apply Z.pow_pos_nonneg; lia).
  induction n as [n IH|n IH|]; intros r Hr; cbn [iter_pos].
  - assert (2 ^ Zpos n~1 = 2 * 2 ^ Zpos n * 2 ^ Zpos n) as ->.
    { replace (Z.pos n~1) with (1 + Z.pos n + Z.pos n) by lia.
      rewrite !Z.pow_add_r by lia. reflexivity. }
    pose proof (Hpos n).
    rewrite IH, IH, shr_1_m; try assumption.
    + rewrite !Z.div_div by lia. f_equal. ring.
    + rewrite shr_1_m by assumption. auto.
    + rewrite IH, shr_1_m; try assumption.
      * apply Hpow. auto.
      * rewrite shr_1_m by assumption. auto.
  - assert (2 ^ Zpos n~0 = 2 ^ Zpos n * 2 ^ Zpos n) as ->.
    { replace (Z.pos n~0) with (Z.pos n + Z.pos n) by lia.
      rewrite Z.pow_add_r by lia. reflexivity. }
    pose proof (Hpos n).
    rewrite IH, IH; try assumption.
    + rewrite Z.div_div by lia. reflexivity.
    + rewrite IH by assumption. auto.
  - rewrite shr_1_m by assumption. reflexivity.
Qed.

Lemma digits2_pos_bound (p : positive) : 2 ^ (Zpos (digits2_pos p) - 1) <= Zpos p.
Proof.
  induction p as [p IH|p IH|]; cbn [digits2_pos].
  - rewrite Pos2Z.inj_succ.
    replace (Z.succ (Z.pos (digits2_pos p)) - 1)
      with (Z.succ (Z.pos (digits2_pos p) - 1)) by lia.
    rewrite Z.pow_succ_r by lia. lia.
  - rewrite Pos2Z.inj_succ.
    replace (Z.succ (Z.pos (digits2_pos p)) - 1)
      with (Z.succ (Z.pos (digits2_pos p) - 1)) by lia.
    rewrite Z.pow_succ_r by lia. lia.
  - reflexivity.
Qed.

(** Shifting a positive mantissa to its format keeps it positive. *)
Lemma shr_fexp_positive (m : positive) (e : Z) (l : location) :
  emin prec emax <= e ->
  0 < shr_m (fst (shr_fexp prec emax (Zpos m) e l)) /\
  emin prec emax <= snd (shr_fexp prec emax (Zpos m) e l).
Proof.
  intros He. unfold shr_fexp, shr.
  assert (shr_m (shr_record_of_loc (Zpos m) l) = Zpos m) as Hm
    by (destruct l as [|[]]; reflexivity).
  cbn [Zdigits2].
  destruct (fexp prec emax (Z.pos (digits2_pos m) + e) - e) as [|n|n] eqn:En;
    cbn [fst snd]; rewrite ?Hm; try (split; lia).
  rewrite iter_shr_1_m by (rewrite Hm; lia). rewrite Hm.
  unfold fexp, emin, prec, emax in *. change IntDef.Z.max with Z.max in En.
  assert (Zpos n <= Zpos (digits2_pos m) - 1) as Hn by lia.
  split; [|lia].
  apply Z.div_str_pos. split; [apply Z.pow_pos_nonneg; lia|].
  pose proof (digits2_pos_bound m).
  assert (2 ^ Zpos n <= 2 ^ (Zpos (digits2_pos m) - 1))
    by (apply Z.pow_le_mono_r; lia).
  lia.
Qed.

Lemma binary_round_aux_positive (m : positive) (e : Z) (l : location) :
  emin prec emax <= e ->
  positive_number (binary_round_aux prec emax false (Zpos m) e l).
Proof.
  intros He. unfold binary_round_aux.
  destruct (shr_fexp_positive m e l He) as [H1 H2].
  destruct (shr_fexp prec emax (Z.pos m) e l) as [mrs' e'].
  cbn [fst snd] in H1, H2.
  assert (0 < round_nearest_even (shr_m mrs') (loc_of_shr_record mrs')) as Hr.
  { unfold round_nearest_even.
    destruct (loc_of_shr_record mrs') as [|[]]; try lia.
    destruct (Z.even (shr_m mrs')); lia. }
  destruct (round_nearest_even (shr_m mrs') (loc_of_shr_record mrs'))
    as [|m'|m'] eqn:Em'; try lia.
  destruct (shr_fexp_positive m' e' loc_Exact H2) as [H3 _].
  destruct (shr_fexp prec emax (Z.pos m') e' loc_Exact) as [mrs'' e''].
  cbn [fst] in H3.
  destruct (shr_m mrs'') as [|m''|m'']; try lia.
  destruct (e'' <=? emax - prec); exact I.
Qed.

Lemma of_Z_positive (p : positive) : positive_number (of_Z (Zpos p)).
Proof.
  unfold of_Z, binary_normalize, binary_round, shl_align.
  destruct (fexp prec emax (Z.pos (digits2_pos p) + 0) - 0) as [|d|d] eqn:Ed;
    apply binary_round_aux_positive; unfold fexp, emin, prec, emax in *;
    change IntDef.Z.max with Z.max in Ed; lia.
Qed.

Lemma positive_gt_zero (x : number) : positive_number x -> gt_zero x = true.
Proof. destruct x as [| [] | | [] ]; simpl; intros H; try contradiction; reflexivity. Qed.

(** A non-empty array has a positive [length]. *)
Lemma length_gt_zero {A} (x : A) (l : list A) :
  gt_zero (of_Z (Z.of_nat (List.length (x :: l)))) = true.
Proof.
  apply positive_gt_zero. cbn [List.length]. rewrite Nat2Z.inj_succ.
  destruct (Z.succ (Z.of_nat (List.length l))) as [|p|p] eqn:E; try lia.
  apply of_Z_positive.
Qed.

(** ** [trim] *)

Lemma trim_start_shape (s : string) :
  (trim_start s = EmptyString /\ all_white_space s = true) \/
  (exists c t, trim_start s = String c t /\ is_white_space c = false /\
               all_white_space s = false).
Proof.
  induction s as [|c s IH]; cbn [trim_start all_white_space].
  - left. split; reflexivity.
  - destruct (is_white_space c) eqn:E; cbn [andb].
    + exact IH.
    + right. exists c, s. repeat split; assumption.
Qed.

Lemma trim_end_nonempty (c : ascii) (t : string) :
  is_white_space c = false -> trim_end (String c t) <> EmptyString.
Proof.
  intros H. cbn [trim_end]. destruct (trim_end t); [rewrite H|]; discriminate.
Qed.

(** The trimmed text is empty exactly when the text is all white space. *)
Lemma trim_empty_iff (s : string) :
  trim s = EmptyString <-> all_white_space s = true.
Proof.
  unfold trim. destruct (trim_start_shape s) as [[E W]|(c & t & E & Hc & W)]; rewrite E.
  - split; [intros _; exact W | reflexivity].
  - split; intros H.
    + exfalso. exact (trim_end_nonempty c t Hc H).
    + congruence.
Qed.

(** ** Scores between 0 and 1 stay in the fixed-point range *)

Lemma shr_fexp_spec (m e : Z) (l : location) :
  0 <= m ->
  shr_m (fst (shr_fexp prec emax m e l))
    = m / 2 ^ Z.max 0 (fexp prec emax (Zdigits2 m + e) - e) /\
  snd (shr_fexp prec emax m e l)
    = e + Z.max 0 (fexp prec emax (Zdigits2 m + e) - e).
Proof.
  intros Hm. unfold shr_fexp, shr.
  assert (shr_m (shr_record_of_loc m l) = m) as E
    by (destruct l as [|[]]; reflexivity).
  destruct (fexp prec emax (Zdigits2 m + e) - e) as [|n|n]; cbn [fst snd].
  - rewrite E, Z.max_l by lia. change (2 ^ 0) with 1. rewrite Z.div_1_r. lia.
  - rewrite iter_shr_1_m by (rewrite E; exact Hm).
    rewrite E, Z.max_r by lia. split; reflexivity.
  - rewrite E, Z.max_l by lia. change (2 ^ 0) with 1. rewrite Z.div_1_r. lia.
Qed.

Lemma round_nearest_even_bounds (m : Z) (l : location) :
  m <= round_nearest_even m l <= m + 1.
Proof.
  unfold round_nearest_even. destruct l as [|[]]; try lia.
  destruct (Z.even m); lia.
Qed.

(** Rounding [M * 2^E] yields zero, or a mantissa and an exponent [e2 >= E]
    with [m2 * 2^(e2 - E) <= M + 2^n], where [n] is the number of bits
    dropped; beyond the largest exponent the result is an infinity. *)
Lemma binary_round_aux_bound (sx : bool) (M : positive) (E : Z) :
  let n := Z.max 0 (fexp prec emax (Zdigits2 (Zpos M) + E) - E) in
  match binary_round_aux prec emax sx (Zpos M) E loc_Exact with
  | S754_zero _ => True
  | S754_finite _ m2 e2 =>
      E <= e2 /\ Zpos m2 * 2 ^ (e2 - E) <= Zpos M + 2 ^ n
  | S754_infinity _ =>
      exists m2 e2, emax - prec < e2 /\ 0 < m2 /\
                    E <= e2 /\ m2 * 2 ^ (e2 - E) <= Zpos M + 2 ^ n
  | S754_nan => False
  end.
Proof.
  intros n. unfold binary_round_aux.
  destruct (shr_fexp_spec (Zpos M) E loc_Exact ltac:(lia)) as [Hm1 He1].
  fold n in Hm1, He1.
  destruct (shr_fexp prec emax (Z.pos M) E loc_Exact) as [mrs1 e1].
  cbn [fst snd] in Hm1, He1.
  assert (0 <= n) as Hn by (unfold n; lia).
  assert (0 < 2 ^ n) as Hpn by (apply Z.pow_pos_nonneg; lia).
  assert (0 <= shr_m mrs1) as Hq by (rewrite Hm1; apply Z.div_pos; lia).
  pose proof (round_nearest_even_bounds (shr_m mrs1) (loc_of_shr_record mrs1)) as Hr.
  set (m1 := round_nearest_even (shr_m mrs1) (loc_of_shr_record mrs1)) in *.
  assert (m1 * 2 ^ n <= Zpos M + 2 ^ n) as Hb1.
  { pose proof (Z.mul_div_le (Zpos M) (2 ^ n) Hpn). nia. }
  destruct (shr_fexp_spec m1 e1 loc_Exact ltac:(lia)) as [Hm2 He2].
  set (n2 := Z.max 0 (fexp prec emax (Zdigits2 m1 + e1) - e1)) in *.
  destruct (shr_fexp prec emax m1 e1 loc_Exact) as [mrs2 e2].
  cbn [fst snd] in Hm2, He2.
  assert (0 <= n2) as Hn2 by (unfold n2; lia).
  assert (0 < 2 ^ n2) as Hpn2 by (apply Z.pow_pos_nonneg; lia).
  assert (shr_m mrs2 * 2 ^ (e2 - E) <= Zpos M + 2 ^ n) as Hb2.
  { replace (e2 - E) with (n2 + n) by lia.
    rewrite Z.pow_add_r by lia.
    pose proof (Z.mul_div_le m1 (2 ^ n2) Hpn2). rewrite <- Hm2 in H.
    nia. }
  assert (0 <= shr_m mrs2) as Hq2 by (rewrite Hm2; apply Z.div_pos; lia).
  destruct (shr_m mrs2) as [|m2|m2] eqn:Em2; [exact I | | lia].
  destruct (e2 <=? emax - prec) eqn:Ee.
  - split; [lia | exact Hb2].
  - apply Z.leb_gt in Ee. exists (Zpos m2), e2. repeat split; lia.
Qed.

Lemma dropped_bits_bound (M : positive) (E : Z) :
  E <= 0 ->
  2 ^ Z.max 0 (fexp prec emax (Zdigits2 (Zpos M) + E) - E)
    <= Z.max (Zpos M) (2 ^ (- E)).
Proof.
  intros HE. unfold fexp, emin, prec, emax. cbn [Zdigits2].
  change IntDef.Z.max with Z.max.
  pose proof (digits2_pos_bound M) as HM.
  set (d := Zpos (digits2_pos M)) in *.
  assert (0 < d) by (unfold d; lia).
  destruct (Z.max_spec 0 (Z.max (d + E - 53) (3 - 1024 - 53) - E)) as [[_ ->]|[_ ->]].
  - destruct (Z.max_spec (d + E - 53) (3 - 1024 - 53)) as [[_ ->]|[_ ->]].
    + assert (2 ^ (3 - 1024 - 53 - E) <= 2 ^ (- E)) by (apply Z.pow_le_mono_r; lia).
      lia.
    + assert (2 ^ (d + E - 53 - E) <= 2 ^ (d - 1)) by (apply Z.pow_le_mono_r; lia).
      lia.
  - change (2 ^ 0) with 1. lia.
Qed.

Lemma of_Z_100 : of_Z 100 = S754_finite false 7036874417766400 (-46).
Proof. reflexivity. Qed.

Lemma unit_interval_fixed_range (s : number) :
  in_unit_interval s = true -> fixed_range (mul s (of_Z 100)) = true.
Proof.
  rewrite of_Z_100.
  destruct s as [sg| | |[] m e]; try discriminate; [reflexivity|].
  cbn [in_unit_interval]. intros Hs.
  assert (e <= 0 /\ Zpos m <= 2 ^ (- e)) as [He Hm].
  { destruct (0 <=? e) eqn:E0.
    - apply Z.leb_le in E0. apply Z.leb_le in Hs.
      assert (0 < 2 ^ e) by (apply Z.pow_pos_nonneg; lia).
      assert (e = 0).
      { destruct (Z.eq_dec e 0) as [|Hne]; [assumption|].
        assert (2 ^ 1 <= 2 ^ e) by (apply Z.pow_le_mono_r; lia).
        change (2 ^ 1) with 2 in *. nia. }
      subst e. change (2 ^ 0) with 1 in Hs. change (2 ^ (- 0)) with 1. lia.
    - apply Z.leb_gt in E0. apply Z.leb_le in Hs. lia. }
  unfold mul, SFmul. cbn [xorb].
  set (M := (m * 7036874417766400)%positive).
  set (E := e + -46).
  pose proof (binary_round_aux_bound false M E) as B. cbv zeta in B.
  pose proof (dropped_bits_bound M E ltac:(unfold E; lia)) as D.
  set (n := Z.max 0 (fexp prec emax (Zdigits2 (Z.pos M) + E) - E)) in *.
  assert (0 < 2 ^ (- E)) as HpE by (apply Z.pow_pos_nonneg; unfold E; lia).
  assert (Zpos M <= 100 * 2 ^ (- E)) as HM.
  { unfold M, E. rewrite Pos2Z.inj_mul.
    replace (- (e + -46)) with (- e + 46) by lia.
    rewrite Z.pow_add_r by lia. change (2 ^ 46) with 70368744177664.
    assert (0 < 2 ^ (- e)) by (apply Z.pow_pos_nonneg; lia). nia. }
  assert (Zpos M + 2 ^ n <= 200 * 2 ^ (- E)) as HB by lia.
  clearbody n. clear D.
  destruct (binary_round_aux prec emax false (Z.pos M) E loc_Exact)
    as [sg'|sg'| |sg' m2 e2]; cbn [fixed_range].
  - reflexivity.
  - exfalso. destruct B as (m2 & e2 & Hbig & Hpos & Hle & Hb).
    unfold emax, prec in Hbig.
    assert (2 ^ (e2 - E) = 2 ^ e2 * 2 ^ (- E)) as Esplit
      by (rewrite <- Z.pow_add_r by (unfold E; lia); f_equal; lia).
    assert (2 ^ 8 <= 2 ^ e2) by (apply Z.pow_le_mono_r; lia).
    change (2 ^ 8) with 256 in *. rewrite Esplit in Hb. nia.
  - contradiction.
  - destruct B as [Hle Hb]. apply negb_true_iff. unfold ge_1e21.
    destruct (0 <=? e2) eqn:E2.
    + apply Z.leb_le in E2. apply Z.leb_gt.
      assert (2 ^ (e2 - E) = 2 ^ e2 * 2 ^ (- E)) as Esplit
        by (rewrite <- Z.pow_add_r by (unfold E; lia); f_equal; lia).
      rewrite Esplit in Hb.
      assert (0 < 2 ^ e2) by (apply Z.pow_pos_nonneg; lia).
      change (10 ^ 21) with 1000000000000000000000. nia.
    + apply Z.leb_gt in E2. apply Z.leb_gt.
      assert (2 ^ (- E) = 2 ^ (e2 - E) * 2 ^ (- e2)) as Esplit
        by (rewrite <- Z.pow_add_r by lia; f_equal; lia).
      rewrite Esplit in HB.
      assert (0 < 2 ^ (e2 - E)) by (apply Z.pow_pos_nonneg; lia).
      assert (0 < 2 ^ (- e2)) by (apply Z.pow_pos_nonneg; lia).
      change (10 ^ 21) with 1000000000000000000000. nia.
Qed.

(** ** Class lists *)

Lemma mem_remove_token (t : string) (l : list string) :
  mem t (remove_token t l) = false.
Proof.
  induction l as [|t' l IH]; cbn [remove_token filter mem]; [reflexivity|].
  destruct (String.eqb t t') eqn:E; cbn [negb mem].
  - exact IH.
  - rewrite E. exact IH.
Qed.

Lemma mem_app (t : string) (l l' : list string) :
  mem t (l ++ l') = mem t l || mem t l'.
Proof.
  induction l as [|x l IH]; cbn [app mem]; [reflexivity|].
  now rewrite IH, orb_assoc.
Qed.

Lemma mem_add_token (t : string) (l : list string) : mem t (add_token t l) = true.
Proof.
  unfold add_token. destruct (mem t l) eqn:E; [exact E|].
  rewrite mem_app. cbn [mem]. rewrite String.eqb_refl. now rewrite orb_true_r.
Qed.

(** ** The question form: rendering an answer *)

Lemma text_nodes_nonempty (a b : string) (c : ascii) :
  text_nodes (a ++ String c b) = [Text (a ++ String c b)].
Proof. destruct a; reflexivity. Qed.

Lemma source_item_text (f : string) (s : number) :
  source_item (f, s) =
  Element "li" "list-group-item"
    [Text (f ++ " (Relevanz: " ++ toFixed 1 (mul s (of_Z 100)) ++ "%)")].
Proof.
  unfold source_item, list_item, createElement, set_className, set_node_textContent.
  cbn [fst snd]. f_equal. apply text_nodes_nonempty.
Qed.

Section Handlers.
Variable wording : type_error -> string.

Lemma append_source_item (src : string * number) (w : world) :
  append_source wording (source_json src) w =
  (Normal tt,
   World (update (page w) sourcesList
            (with_children (page w sourcesList)
               (childNodes (page w sourcesList) ++ [source_item src])))
         (log w) (in_flight w)).
Proof. reflexivity. Qed.

(** [forEach] appends one item per source, in order. *)
Lemma forEach_sources (srcs : list (string * number)) : forall w,
  forEach (map source_json srcs) (append_source wording) w =
  (Normal tt,
   World (update (page w) sourcesList
            (with_children (page w sourcesList)
               (childNodes (page w sourcesList) ++ map source_item srcs)))
         (log w) (in_flight w)).
Proof.
  induction srcs as [|src srcs IH]; intros w; cbn [map forEach].
  - destruct w as [[] l fl]. cbn. rewrite app_nil_r.
    destruct at_sourcesList0; reflexivity.
  - unfold bind. rewrite append_source_item, IH.
    cbn. rewrite <- app_assoc. reflexivity.
Qed.

(** The success branch of the question chain, for a response with at least
    one source. *)
Lemma ask_then_answer (a : string) (src : string * number)
    (rest : list (string * number)) (w : world) :
  ask_then wording (answer_response a (src :: rest)) w =
  (Normal tt,
   World
     (update
        (update
           (update (page w) answerContent
              (with_children (page w answerContent) (text_nodes a)))
           sourcesList
           (with_children (page w sourcesList) (map source_item (src :: rest))))
        answerSection
        (with_classList (page w answerSection)
           (remove_token "d-none" (classList (page w answerSection)))))
     (log w) (in_flight w)).
Proof.
  unfold ask_then, answer_response, show_sources, length_positive, call_forEach.
  unfold bind, ret, get.
  cbn -[of_Z Z.of_nat List.length map forEach text_nodes remove_token append_source].
  change (map source_json (src :: rest)) with (source_json src :: map source_json rest).
  rewrite length_gt_zero.
  change (source_json src :: map source_json rest) with (map source_json (src :: rest)).
  rewrite forEach_sources.
  cbn -[map text_nodes remove_token].
  reflexivity.
Qed.

Lemma ask_chain_answer (a : string) (src : string * number)
    (rest : list (string * number)) (w : world) :
  exec (ask_chain wording (Normal (answer_response a (src :: rest)))) w
  = exec ask_finally (snd (ask_then wording (answer_response a (src :: rest)) w)).
Proof.
  unfold ask_chain. rewrite exec_finally, exec_catch.
  unfold then_, settled, bind. rewrite ask_then_answer. reflexivity.
Qed.

(** C1.  For a response [{success: true, answer: a, sources: [{filename: f,
    score: s}, ...]}] the question chain sets the answer content to the text
    [a] (a text node, nothing parsed as markup), renders one list item per
    source, in order, whose text is the filename followed by
    [(score * 100).toFixed(1)] as a percentage, and reveals the answer
    section; for a score between 0 and 1, as the page's data model has it,
    that percentage has exactly one digit after the point.  For the answer
    [Paris] with the one source [geo.txt] of score [0.873] the answer reads
    [Paris] and the list is the single item [geo.txt (Relevanz: 87.3%)]. *)
Theorem answer_and_sources_rendered (w : world) :
  (forall (a f : string) (s : number) (rest : list (string * number)),
     let w' := exec (ask_chain wording
                       (Normal (answer_response a ((f, s) :: rest)))) w in
     childNodes (page w' answerContent) = text_nodes a /\
     existsb is_markup (childNodes (page w' answerContent)) = false /\
     childNodes (page w' sourcesList) = map source_item ((f, s) :: rest) /\
     source_item (f, s) =
       Element "li" "list-group-item"
         [Text (f ++ " (Relevanz: " ++ toFixed 1 (mul s (of_Z 100)) ++ "%)")] /\
     (in_unit_interval s = true ->
      is_one_decimal (toFixed 1 (mul s (of_Z 100))) = true) /\
     hidden (page w' answerSection) = false) /\
  (let w' := exec (ask_chain wording
                     (Normal (answer_response "Paris"
                                [("geo.txt", of_decimal 873 (-3))]))) w in
   childNodes (page w' answerContent) = [Text "Paris"] /\
   childNodes (page w' sourcesList) =
     [Element "li" "list-group-item" [Text "geo.txt (Relevanz: 87.3%)"]]).
Proof.
  split.
  - intros a f s rest. cbv zeta. rewrite ask_chain_answer, ask_then_answer.
    split; [reflexivity|]. split; [destruct a; reflexivity|].
    split; [reflexivity|]. split; [apply source_item_text|]. split.
    + intros Hs. apply toFixed_one_spec, unit_interval_fixed_range, Hs.
    + cbn. apply mem_remove_token.
  - cbv zeta. rewrite ask_chain_answer, ask_then_answer. split; reflexivity.
Qed.

(** ** The index button *)

Lemma contains_infix (before needle after : string) :
  contains needle (before ++ needle ++ after).
Proof. exists before, after. reflexivity. Qed.

(** C2.  Whatever the outcome of the index request (a response with a
    truthy or falsy [success], any other JSON value, or a rejected or
    unparsable response), the index button is enabled when its chain has
    run; so it is at the end of every cycle that a click starts. *)
Theorem index_button_reenabled (w : world) (outcome : completion json) :
  disabled (page (exec (index_chain wording outcome) w) indexButton) = false /\
  disabled (page (exec (index_chain wording outcome) (exec indexButton_click w))
              indexButton) = false.
Proof.
  unfold index_chain. rewrite !exec_finally. split; reflexivity.
Qed.

(** C6.  When the index request is rejected or its body is no JSON, the
    status area is set to a danger alert that contains the error's message,
    the error is written to the console, and the button is enabled again. *)
Theorem index_failure_reported (w : world) (error : js_error) :
  let w' := exec (index_chain wording (Throw error)) w in
  childNodes (page w' indexStatus) =
    [Markup (alert_div "danger" ("Fehler: " ++ error_message error))] /\
  contains (error_message error)
    (alert_div "danger" ("Fehler: " ++ error_message error)) /\
  log w' = (log w ++ [ConsoleError "Fehler:" error])%list /\
  disabled (page w' indexButton) = false.
Proof.
  cbv zeta. repeat split.
  unfold alert_div.
  rewrite <- !string_app_assoc. rewrite string_app_assoc.
  apply contains_infix.
Qed.

(** ** The question form: the guard, failures and the frame *)

(** C3.  When the question is empty after trimming (that is, all white
    space), submitting shows the warning and returns: the event's default is
    prevented, one alert is shown, no request is issued, and no element of
    the page changes (the loading indicator stays as it was, and so does the
    answer section). *)
Theorem empty_question_rejected (w : world) :
  trim (value (page w questionInput)) = EmptyString ->
  all_white_space (value (page w questionInput)) = true /\
  exec questionForm_submit w =
    World (page w)
          (log w ++ [PreventDefault; Alert "Bitte geben Sie eine Frage ein."])%list
          (in_flight w).
Proof.
  intros H. split.
  - apply trim_empty_iff, H.
  - unfold questionForm_submit, exec, bind, preventDefault, get_value, alert, emit.
    cbn [fst snd page log in_flight]. rewrite H. cbn.
    rewrite <- app_assoc. reflexivity.
Qed.

(** C4.  For a response with [success: true] whose [sources] is absent or
    the empty array, and whose [answer] the [textContent] setter converts
    to a text [t] (a string as the interface has it, or any other value
    that converts), the answer content is the text [t] and the sources
    list is exactly one item, the placeholder that says no specific
    sources were found. *)
Theorem no_sources_placeholder (w : world) (fields : list (string * json))
    (t : string) :
  lookup "success" fields = Some (JBool true) ->
  lookup "sources" fields = None \/ lookup "sources" fields = Some (JArr []) ->
  text_of (lookup "answer" fields) = Some t ->
  let w' := exec (ask_chain wording (Normal (JObj fields))) w in
  childNodes (page w' answerContent) = text_nodes t /\
  childNodes (page w' sourcesList)
  = [Element "li" "list-group-item" [Text "Keine spezifischen Quellen gefunden."]].
Proof.
  intros Hsuccess Hsources Hanswer. cbv zeta.
  unfold ask_chain. rewrite exec_finally, exec_catch.
  unfold then_, settled, bind, ask_then, show_sources, get, ret, bind, as_text.
  rewrite Hsuccess, Hanswer. cbn [truthy].
  destruct Hsources as [-> | ->]; split; reflexivity.
Qed.

Lemma submit_sends (w : world) :
  trim (value (page w questionInput)) <> EmptyString ->
  exec questionForm_submit w =
    World
      (update
         (update (page w) loadingIndicator
            (with_classList (page w loadingIndicator)
               (remove_token "d-none" (classList (page w loadingIndicator)))))
         answerSection
         (with_classList (page w answerSection)
            (add_token "d-none" (classList (page w answerSection)))))
      (log w ++
       [PreventDefault;
        Fetch (Request "/api/ask" "POST" post_headers
                 (Some (JObj [("question", JStr (trim (value (page w questionInput))))])))])%list
      (in_flight w ++ [AskChain])%list.
Proof.
  intros H.
  unfold questionForm_submit, exec, bind, preventDefault, get_value, emit.
  cbn [fst snd page log in_flight].
  destruct (trim (value (page w questionInput))) as [|c t] eqn:E; [congruence|].
  cbn. rewrite <- app_assoc. reflexivity.
Qed.

Lemma ask_failure (m : string) (w : world) :
  exec (ask_chain wording (Normal (failure_response m))) w =
    World
      (update (page w) loadingIndicator
         (with_classList (page w loadingIndicator)
            (add_token "d-none" (classList (page w loadingIndicator)))))
      (log w ++ [Alert ("Fehler: " ++ m)])%list
      (in_flight w).
Proof. reflexivity. Qed.

(** C5.  For a response [{success: false, message: m}] the question chain
    shows an alert that contains [m], leaves the answer section as it is, and
    hides the loading indicator; in the cycle of a submitted question the
    answer section was hidden when the request was sent, and it is hidden
    when the chain has run. *)
Theorem failure_alerted (w : world) (m : string) :
  trim (value (page w questionInput)) <> EmptyString ->
  (forall arrival : world,
     let w' := exec (ask_chain wording (Normal (failure_response m))) arrival in
     log w' = (log arrival ++ [Alert ("Fehler: " ++ m)])%list /\
     page w' answerSection = page arrival answerSection /\
     hidden (page w' loadingIndicator) = true) /\
  contains m ("Fehler: " ++ m) /\
  (let w1 := exec questionForm_submit w in
   let w2 := exec (ask_chain wording (Normal (failure_response m))) w1 in
   in_flight w1 = (in_flight w ++ [AskChain])%list /\
   hidden (page w1 answerSection) = true /\
   log w2 = (log w1 ++ [Alert ("Fehler: " ++ m)])%list /\
   hidden (page w2 answerSection) = true /\
   hidden (page w2 loadingIndicator) = true).
Proof.
  intros H. split; [|split].
  - intros arrival. cbv zeta. rewrite ask_failure. cbn [page log in_flight].
    repeat split. cbn. apply mem_add_token.
  - exists "Fehler: ", EmptyString. now rewrite string_app_nil_r.
  - cbv zeta. rewrite ask_failure, (submit_sends w H).
    cbn [page log in_flight]. repeat split; cbn; apply mem_add_token.
Qed.

(** C10.  Neither the submit handler nor the chain of the question
    request, whatever the outcome, changes the value of the question field:
    after a whole cycle it is what the user typed. *)
Theorem question_input_kept (w : world) (outcome : completion json) :
  value (page (exec questionForm_submit w) questionInput)
    = value (page w questionInput) /\
  value (page (exec (ask_chain wording outcome) w) questionInput)
    = value (page w questionInput) /\
  value (page (exec (ask_chain wording outcome) (exec questionForm_submit w))
           questionInput)
    = value (page w questionInput).
Proof.
  assert (forall w', page (exec questionForm_submit w') questionInput
                     = page w' questionInput) as Hs
    by (intros; apply submit_writes; reflexivity).
  assert (forall w', page (exec (ask_chain wording outcome) w') questionInput
                     = page w' questionInput) as Ha
    by (intros; apply ask_chain_writes; reflexivity).
  rewrite !Ha, !Hs. repeat split.
Qed.

(** C9.  The index chain assigns the server's message, and on a failure
    the error's message, to [innerHTML] of the status area without escaping:
    the status area's child is what the HTML parser builds from a string that
    embeds the message as it is.  The answer of the question chain is
    assigned as text: no child of the answer content comes from the
    parser. *)
Theorem status_is_markup (w : world) :
  (forall (success : bool) (m : string),
     childNodes (page (exec (index_chain wording (Normal (index_response success m))) w)
                   indexStatus)
     = [Markup ("<div class=" ++ dquote ++ "alert alert-"
                ++ (if success then "success" else "danger") ++ dquote ++ ">"
                ++ m ++ "</div>")]) /\
  (forall error : js_error,
     childNodes (page (exec (index_chain wording (Throw error)) w) indexStatus)
     = [Markup ("<div class=" ++ dquote ++ "alert alert-danger" ++ dquote ++ ">"
                ++ "Fehler: " ++ error_message error ++ "</div>")]) /\
  (forall (a : string) (src : string * number) (rest : list (string * number)),
     childNodes (page (exec (ask_chain wording (Normal (answer_response a (src :: rest)))) w)
                   answerContent)
     = text_nodes a /\
     existsb is_markup (text_nodes a) = false).
Proof.
  split; [|split].
  - intros [] m; reflexivity.
  - intros error. reflexivity.
  - intros a src rest. split.
    + rewrite ask_chain_answer, ask_then_answer. reflexivity.
    + destruct a; reflexivity.
Qed.

(** ** The event loop: the guard of the index button *)

Lemma index_requests_app (l l' : list chain) :
  index_requests (l ++ l') = (index_requests l + index_requests l')%nat.
Proof.
  induction l as [|[] l IH]; cbn [app index_requests]; [reflexivity | |];
    rewrite IH; reflexivity.
Qed.

Lemma index_requests_settled (l : list chain) : forall i c,
  nth_error l i = Some c ->
  index_requests l =
  (match c with IndexChain => 1 | AskChain => 0 end
   + index_requests (remove_nth i l))%nat.
Proof.
  induction l as [|c' l IH]; intros [|i] c H; cbn in H; try discriminate.
  - injection H as ->. destruct c; reflexivity.
  - cbn [remove_nth]. destruct c'; cbn [index_requests];
      rewrite (IH i c H); destruct c; reflexivity.
Qed.

Lemma submit_in_flight (w : world) :
  index_requests (in_flight (exec questionForm_submit w))
  = index_requests (in_flight w).
Proof.
  unfold questionForm_submit, exec, bind, preventDefault, get_value, emit.
  cbn [fst snd page log in_flight].
  destruct (is_empty _); cbn; [reflexivity|].
  rewrite index_requests_app. cbn. lia.
Qed.

(** The click handler reaches its request in a world in which the button
    is disabled already and nothing else has happened outside the page. *)
Lemma click_issues (w : world) :
  exists w1,
    before_request indexButton_click_body w = Some w1 /\
    disabled (page w1 indexButton) = true /\
    log w1 = log w /\
    in_flight w1 = in_flight w /\
    indexButton_click w =
      fetch (Request "/api/index-documents" "POST" post_headers None)
            IndexChain w1.
Proof.
  eexists. split; [|split; [|split; [|split]]]; [| | | |reflexivity];
    [|reflexivity..].
  unfold indexButton_click_body.
  cbn [before_request set_disabled set_innerHTML modify fetch log].
  rewrite Nat.ltb_irrefl, fetches_app, length_app.
  cbn [fetches List.length].
  replace (List.length (fetches (log w)) <? List.length (fetches (log w)) + 1)%nat
    with true by (symmetry; apply Nat.ltb_lt; lia).
  reflexivity.
Qed.

Lemma dispatch_guard (ev : event) (w : world) :
  index_guard w -> index_guard (dispatch wording ev w).
Proof.
  intros G. destruct ev as [|text| |i outcome]; cbn [dispatch].
  - (* Click *)
    destruct (disabled (page w indexButton)) eqn:D; [exact G|].
    destruct G as [G|[_ G]]; [|congruence].
    right. split; [|reflexivity].
    cbn. rewrite index_requests_app, G. reflexivity.
  - (* Input *)
    exact G.
  - (* Submit *)
    unfold index_guard. rewrite submit_in_flight.
    rewrite (submit_writes w indexButton eq_refl). exact G.
  - (* Response *)
    destruct (nth_error (in_flight w) i) as [c|] eqn:E; [|exact G].
    pose proof (index_requests_settled _ _ _ E) as N.
    unfold index_guard in *.
    destruct c; cbn [chain_of].
    + rewrite index_chain_quiet. cbn [in_flight]. left. lia.
    + rewrite ask_chain_quiet, (ask_chain_writes wording outcome _ indexButton eq_refl).
      cbn [in_flight page]. cbn in N. rewrite <- N. exact G.
Qed.

Lemma run_guard (events : list event) : forall w,
  index_guard w -> index_guard (run wording events w).
Proof.
  induction events as [|ev events IH]; intros w G; cbn [run fold_left].
  - exact G.
  - apply IH, dispatch_guard, G.
Qed.

(** C8.  On a page on which only user events and responses occur, starting
    with nothing in flight: the statements of the click handler, run in
    program order, reach the one that issues the request in a world [w1] in
    which the index button is disabled already (and no effect has been
    added, nothing put in flight), and the handler is that request issued
    from [w1]; and in every state reached either no index request is in
    flight, or exactly one is, the button is disabled, and a click does
    nothing. *)
Theorem index_request_guarded (w0 : world) (events : list event) :
  in_flight w0 = [] ->
  let w := run wording events w0 in
  (exists w1,
     before_request indexButton_click_body w = Some w1 /\
     disabled (page w1 indexButton) = true /\
     log w1 = log w /\
     in_flight w1 = in_flight w /\
     indexButton_click w =
       fetch (Request "/api/index-documents" "POST" post_headers None)
             IndexChain w1) /\
  (index_requests (in_flight w) = O \/
   (index_requests (in_flight w) = 1%nat /\
    disabled (page w indexButton) = true /\
    dispatch wording Click w = w)).
Proof.
  intros H0. cbv zeta. split; [apply click_issues|].
  assert (index_guard w0) as G0 by (left; rewrite H0; reflexivity).
  destruct (run_guard events w0 G0) as [G|[G D]]; [left; exact G|].
  right. repeat split; try assumption.
  cbn [dispatch]. rewrite D. reflexivity.
Qed.
End Handlers.

(** ** The percentage of a score *)

(** [forEach] keeps the order of the sources: the item at a position is the
    item of the source at that position. *)
Lemma nth_error_map_middle {A B} (g : A -> B) (before : list A) (x : A)
    (after : list A) :
  nth_error (map g (before ++ x :: after)) (List.length before) = Some (g x).
Proof. induction before as [|y before IH]; [reflexivity | exact IH]. Qed.

(** C7, amended.  For every response [{success: true, answer: a, sources:
    [..., {filename: f, score: s}, ...]}] in which the product [s * 100] is
    finite and below [10^21] in magnitude, inside [0, 1] or not, the
    question chain renders at the position of that source the list item
    whose text is [f], then [ (Relevanz: ], then the product in tenths with
    exactly one digit after the point, then [%)]: the tenths are the product
    rounded to a nearest tenth, the digits of the whole part are all written
    (nothing is clamped) and the sign is kept. *)
Theorem score_shown_in_tenths (wording : type_error -> string) (w : world)
    (a : string) (before : list (string * number)) (f : string) (s : number)
    (after : list (string * number)) :
  fixed_range (mul s (of_Z 100)) = true ->
  let x := mul s (of_Z 100) in
  let shown :=
    minus_sign x ++ decimal_digits (tenths x / 10) ++ "."
    ++ String (digit_char (tenths x mod 10)) EmptyString in
  nth_error
    (childNodes
       (page (exec (ask_chain wording
                      (Normal (answer_response a (before ++ (f, s) :: after))))
                   w)
             sourcesList))
    (List.length before)
  = Some (Element "li" "list-group-item"
            [Text (f ++ " (Relevanz: " ++ shown ++ "%)")]) /\
  is_one_decimal shown = true /\
  digits_value (decimal_digits (tenths x / 10)) 0 = tenths x / 10 /\
  nearest_tenth x (tenths x).
Proof.
  intros H. cbv zeta.
  destruct (toFixed_one_spec _ H) as (E & Shape & Digits & Near).
  rewrite <- E. split; [|split; [exact Shape | split; [exact Digits | exact Near]]].
  assert (exists src rest, (before ++ (f, s) :: after)%list = src :: rest) as (src & rest & L)
    by (destruct before; eexists; eexists; reflexivity).
  rewrite L, ask_chain_answer, ask_then_answer, <- L.
  cbn [snd exec ask_finally classList_add modify page state_of update at_sourcesList
       with_children with_classList childNodes].
  rewrite nth_error_map_middle. f_equal. apply source_item_text.
Qed.

(** C7 as stated fails for large scores: [1e19 * 100] is [1e21], which
    [toFixed] writes as the default conversion does, with no digit after a
    point.  The response [{success: true, answer: "A", sources: [{filename:
    "big.txt", score: 1e19}]}] is rendered as the item
    [big.txt (Relevanz: 1e+21%)]; and [1e307 * 100] overflows and is shown
    as [Infinity]. *)
Lemma score_1e19_shown_in_exponent_form :
  childNodes
    (page (exec (ask_chain v8_wording
                   (Normal (answer_response "A" [("big.txt", of_decimal 1 19)])))
                (loaded_page "A?"))
          sourcesList)
  = [Element "li" "list-group-item" [Text "big.txt (Relevanz: 1e+21%)"]] /\
  is_one_decimal "1e+21" = false /\
  fixed_range (mul (of_decimal 1 19) (of_Z 100)) = false /\
  childNodes
    (page (exec (ask_chain v8_wording
                   (Normal (answer_response "A" [("huge.txt", of_decimal 1 307)])))
                (loaded_page "A?"))
          sourcesList)
  = [Element "li" "list-group-item" [Text "huge.txt (Relevanz: Infinity%)"]].
Proof. vm_compute. repeat split. Qed.


(** ** Worked examples *)

(** The literal [0.873] of a JSON text is read as the nearest Number:
    [m * 2^-53] with [|m * 2^-53 - 0.873| <= 2^-54]. *)
Example score_0_873_nearest :
  of_decimal 873 (-3) = S754_finite false 7863284949388886 (-53) /\
  2 * Z.abs (1000 * 7863284949388886 - 873 * 2 ^ 53) <= 1000.
Proof. split; [reflexivity | vm_compute; discriminate]. Qed.

Lemma answer_and_sources_rendered_example :
  in_unit_interval (of_decimal 873 (-3)) = true /\
  is_one_decimal (toFixed 1 (mul (of_decimal 873 (-3)) (of_Z 100))) = true /\
  childNodes
    (page (exec (ask_chain v8_wording
                   (Normal (answer_response "Paris"
                              [("geo.txt", of_decimal 873 (-3))])))
                (loaded_page "Hauptstadt von Frankreich?"))
          sourcesList)
  = [Element "li" "list-group-item" [Text "geo.txt (Relevanz: 87.3%)"]].
Proof.
  split; [reflexivity|].
  destruct (answer_and_sources_rendered v8_wording
              (loaded_page "Hauptstadt von Frankreich?")) as [General [_ Paris]].
  destruct (General "Paris" "geo.txt" (of_decimal 873 (-3)) [])
    as (_ & _ & _ & _ & Shape & _).
  split; [exact (Shape eq_refl) | exact Paris].
Defined.

Lemma empty_question_rejected_example :
  trim (value (page (loaded_page "   ") questionInput)) = EmptyString /\
  all_white_space "   " = true /\
  exec questionForm_submit (loaded_page "   ") =
    World (page (loaded_page "   "))
          [PreventDefault; Alert "Bitte geben Sie eine Frage ein."] [].
Proof.
  split; [reflexivity|].
  exact (empty_question_rejected (loaded_page "   ") eq_refl).
Defined.

Lemma no_sources_placeholder_example :
  lookup "sources" [("success", JBool true); ("answer", JStr "X"); ("sources", JArr [])]
    = Some (JArr []) /\
  text_of (lookup "answer" [("success", JBool true); ("answer", JStr "X");
                            ("sources", JArr [])]) = Some "X" /\
  childNodes
    (page (exec (ask_chain v8_wording
                   (Normal (JObj [("success", JBool true); ("answer", JStr "X");
                                  ("sources", JArr [])])))
                (loaded_page "X?"))
          answerContent)
  = [Text "X"] /\
  childNodes
    (page (exec (ask_chain v8_wording
                   (Normal (JObj [("success", JBool true); ("answer", JStr "X");
                                  ("sources", JArr [])])))
                (loaded_page "X?"))
          sourcesList)
  = [Element "li" "list-group-item" [Text "Keine spezifischen Quellen gefunden."]].
Proof.
  split; [reflexivity|]. split; [reflexivity|].
  exact (no_sources_placeholder v8_wording (loaded_page "X?")
           [("success", JBool true); ("answer", JStr "X"); ("sources", JArr [])]
           "X" eq_refl (or_intror eq_refl) eq_refl).
Defined.

Lemma failure_alerted_example :
  trim (value (page (loaded_page "Was ist neu?") questionInput)) <> EmptyString /\
  log (exec (ask_chain v8_wording (Normal (failure_response "no index")))
            (exec questionForm_submit (loaded_page "Was ist neu?")))
  = [PreventDefault;
     Fetch (Request "/api/ask" "POST" post_headers
              (Some (JObj [("question", JStr "Was ist neu?")])));
     Alert "Fehler: no index"] /\
  hidden (page (exec (ask_chain v8_wording (Normal (failure_response "no index")))
                     (exec questionForm_submit (loaded_page "Was ist neu?")))
               answerSection) = true.
Proof.
  assert (trim (value (page (loaded_page "Was ist neu?") questionInput))
          <> EmptyString) as H by discriminate.
  split; [exact H|].
  destruct (failure_alerted v8_wording (loaded_page "Was ist neu?") "no index" H)
    as (_ & _ & _ & _ & Hlog & Hidden & _).
  split; [exact Hlog | exact Hidden].
Defined.

Lemma score_shown_in_tenths_example :
  fixed_range (mul (of_decimal 25 (-1)) (of_Z 100)) = true /\
  nth_error
    (childNodes
       (page (exec (ask_chain v8_wording
                      (Normal (answer_response "A"
                                 [("geo.txt", of_decimal 873 (-3));
                                  ("wide.txt", of_decimal 25 (-1))])))
                   (loaded_page "A?"))
             sourcesList))
    1
  = Some (Element "li" "list-group-item" [Text "wide.txt (Relevanz: 250.0%)"]) /\
  is_one_decimal "250.0" = true.
Proof.
  split; [reflexivity|].
  destruct (score_shown_in_tenths v8_wording (loaded_page "A?") "A"
              [("geo.txt", of_decimal 873 (-3))] "wide.txt" (of_decimal 25 (-1)) []
              eq_refl)
    as (Hitem & Hshape & _).
  split; [exact Hitem | exact Hshape].
Defined.

Lemma index_request_guarded_example :
  in_flight (loaded_page "x") = [] /\
  index_requests (in_flight (run v8_wording [Click; Click; Submit] (loaded_page "x")))
    = 1%nat /\
  disabled (page (run v8_wording [Click; Click; Submit] (loaded_page "x")) indexButton)
    = true.
Proof.
  split; [reflexivity|].
  destruct (index_request_guarded v8_wording (loaded_page "x") [Click; Click; Submit]
              eq_refl) as [_ [H|(H & D & _)]].
  - discriminate H.
  - split; [exact H | exact D].
Defined.

(** * Further properties of the two handlers *)

(** ** [trim] and the question that is sent *)

Lemma trim_end_idempotent (s : string) : trim_end (trim_end s) = trim_end s.
Proof.
  induction s as [|c s IH]; [reflexivity|].
  cbn [trim_end]. destruct (trim_end s) as [|d t] eqn:E.
  - destruct (is_white_space c) eqn:W; [reflexivity|].
    cbn [trim_end]. now rewrite W.
  - change (trim_end (String c (String d t)))
      with (match trim_end (String d t) with
            | EmptyString =>
                if is_white_space c then EmptyString else String c EmptyString
            | String a u => String c (String a u)
            end).
    rewrite IH. reflexivity.
Qed.

Lemma trim_end_first (c : ascii) (t : string) :
  is_white_space c = false -> exists u, trim_end (String c t) = String c u.
Proof.
  intros W. cbn [trim_end]. destruct (trim_end t) as [|d u].
  - rewrite W. eexists; reflexivity.
  - eexists; reflexivity.
Qed.

Lemma trim_end_last (s : string) :
  trim_end s = EmptyString \/
  exists c, last_char (trim_end s) = Some c /\ is_white_space c = false.
Proof.
  induction s as [|c s IH]; [left; reflexivity|].
  cbn [trim_end]. destruct (trim_end s) as [|d t] eqn:E.
  - destruct (is_white_space c) eqn:W; [left; reflexivity|].
    right. exists c. split; [reflexivity | exact W].
  - right. destruct IH as [IH|IH]; [discriminate IH|exact IH].
Qed.

(** A trimmed text is empty or clean, and trimming it again changes
    nothing. *)
Lemma trim_clean (s : string) :
  trim s <> EmptyString -> clean_text (trim s) /\ trim (trim s) = trim s.
Proof.
  unfold trim. intros H.
  destruct (trim_start_shape s) as [[E _]|(c & t & E & W & _)];
    rewrite E in *; [now contradiction H|].
  destruct (trim_end_first c t W) as [u Eu].
  split; [split|].
  - exists c. rewrite Eu. split; [reflexivity | exact W].
  - destruct (trim_end_last (String c t)) as [E0|L]; [congruence | exact L].
  - rewrite Eu. cbn [trim_start]. rewrite W, <- Eu. apply trim_end_idempotent.
Qed.

(** The submit handler on a question that is empty after trimming. *)
Lemma empty_text_alert (w : world) :
  trim (value (page w questionInput)) = EmptyString ->
  in_flight (exec questionForm_submit w) = in_flight w /\
  log (exec questionForm_submit w)
    = (log w ++ [PreventDefault; Alert "Bitte geben Sie eine Frage ein."])%list.
Proof.
  intros H.
  unfold questionForm_submit, exec, bind, preventDefault, get_value, alert, emit.
  cbn [fst snd page log in_flight]. rewrite H. cbn.
  rewrite <- app_assoc. split; reflexivity.
Qed.

Section Further.
Variable wording : type_error -> string.

(** ** The question form: sending *)

(** X1.  Whenever the question field holds more than white space, submitting
    prevents the default, sends exactly one request to [/api/ask] whose
    question is the trimmed text (not empty, no white space at either end,
    unchanged by another trim), shows the loading indicator and hides the
    answer section, whatever is already in flight. *)
Theorem question_sent_trimmed (w : world) :
  all_white_space (value (page w questionInput)) = false ->
  clean_text (trim (value (page w questionInput))) /\
  trim (trim (value (page w questionInput))) = trim (value (page w questionInput)) /\
  log (exec questionForm_submit w)
    = (log w ++ [PreventDefault;
                 Fetch (ask_request (trim (value (page w questionInput))))])%list /\
  in_flight (exec questionForm_submit w) = (in_flight w ++ [AskChain])%list /\
  hidden (page (exec questionForm_submit w) loadingIndicator) = false /\
  hidden (page (exec questionForm_submit w) answerSection) = true.
Proof.
  intros H.
  assert (trim (value (page w questionInput)) <> EmptyString) as Hne.
  { intros E. apply trim_empty_iff in E. congruence. }
  destruct (trim_clean _ Hne) as [Hclean Hidem].
  rewrite (submit_sends w Hne). cbn [page log in_flight].
  repeat split; try assumption; try apply Hclean.
  - cbn. apply mem_remove_token.
  - cbn. apply mem_add_token.
Qed.

(** ** The question form: every way a response can end *)

(** X2.  When the question request is rejected or its body is no JSON, the
    chain shows one alert with the error's message, writes the error to the
    console, hides the loading indicator and changes nothing else: the
    answer section, the answer and the sources stay as they were. *)
Theorem question_failure_reported (w : world) (error : js_error) :
  exec (ask_chain wording (Throw error)) w =
    World
      (update (page w) loadingIndicator
         (with_classList (page w loadingIndicator)
            (add_token "d-none" (classList (page w loadingIndicator)))))
      (log w ++ [Alert ("Fehler bei der Anfrage: " ++ error_message error);
                 ConsoleError "Fehler:" error])%list
      (in_flight w) /\
  contains (error_message error)
    ("Fehler bei der Anfrage: " ++ error_message error).
Proof.
  split.
  - unfold ask_chain. rewrite exec_finally, exec_catch.
    cbn. rewrite <- app_assoc. reflexivity.
  - exists "Fehler bei der Anfrage: ", EmptyString. now rewrite string_app_nil_r.
Qed.

(** X3.  Whatever the outcome of the question request, the loading indicator
    is hidden when the chain has run, also at the end of a cycle that a
    submit starts. *)
Theorem loading_indicator_hidden (w : world) (outcome : completion json) :
  hidden (page (exec (ask_chain wording outcome) w) loadingIndicator) = true /\
  hidden (page (exec (ask_chain wording outcome) (exec questionForm_submit w))
            loadingIndicator) = true.
Proof.
  unfold ask_chain. rewrite !exec_finally.
  split; cbn; apply mem_add_token.
Qed.

(** X4.  Neither chain ends rejected: an error thrown while a response is
    handled (a [null] body, a [null] source, sources that are no array) is
    caught by the chain's own [catch], whose handler and the [finally]
    handler do not throw. *)
Theorem chains_end_fulfilled (w : world) (outcome : completion json) :
  fst (index_chain wording outcome w) = Normal tt /\
  fst (ask_chain wording outcome w) = Normal tt.
Proof.
  split.
  - unfold index_chain, finally_, catch_.
    destruct (then_ (settled outcome) (index_then wording) w) as [[[]|e] w'];
      reflexivity.
  - unfold ask_chain, finally_, catch_.
    destruct (then_ (settled outcome) (ask_then wording) w) as [[[]|e] w'];
      reflexivity.
Qed.

(** X5.  The question chain takes any response object whose [success] is
    falsy (false, 0, the empty string, null, or absent) as a failure.  Where
    the message converts to a string ([undefined] when the response has no
    message) it alerts [Fehler: ] followed by that string.  Where it does
    not (an object with a key [toString] of its own) the conversion throws,
    and the chain's [catch] alerts [Fehler bei der Anfrage: ] followed by
    the TypeError's message and writes the error to the console.  Either
    way the chain hides the loading indicator and changes nothing else. *)
Theorem falsy_success_alerted (w : world) (fields : list (string * json)) :
  truthy (lookup "success" fields) = false ->
  exec (ask_chain wording (Normal (JObj fields))) w =
    World
      (update (page w) loadingIndicator
         (with_classList (page w loadingIndicator)
            (add_token "d-none" (classList (page w loadingIndicator)))))
      (log w ++
       match ToString (lookup "message" fields) with
       | Some text => [Alert ("Fehler: " ++ text)]
       | None =>
           [Alert ("Fehler bei der Anfrage: " ++ wording NotPrimitive);
            ConsoleError "Fehler:" (TypeError wording NotPrimitive)]
       end)%list
      (in_flight w) /\
  ToString None = Some "undefined" /\
  ToString (Some (JObj [("toString", JNum (of_Z 1))])) = None.
Proof.
  intros H. split; [|split; reflexivity].
  unfold ask_chain. rewrite exec_finally, exec_catch.
  unfold then_, settled, bind, ask_then, get, ret, bind, as_string.
  rewrite H. destruct (ToString (lookup "message" fields)) as [text|].
  - reflexivity.
  - cbn. rewrite <- app_assoc. reflexivity.
Qed.

(** ** The index button: the status after a response *)

(** X6.  For a response object whose message converts to a string the
    alert's kind follows the truthiness of [success], whatever its type,
    and its body is that string; where the message does not convert (an
    object with a key [toString] of its own) the status is the danger alert
    [Fehler: ] followed by the TypeError's message.  And for every outcome
    at all the status area ends as a success or a danger alert, never as
    the notice that indexing has started. *)
Theorem index_status_settled (w : world) :
  (forall fields : list (string * json),
     childNodes (page (exec (index_chain wording (Normal (JObj fields))) w) indexStatus)
     = [Markup
          match ToString (lookup "message" fields) with
          | Some text =>
              alert_div
                (if truthy (lookup "success" fields) then "success" else "danger")
                text
          | None => alert_div "danger" ("Fehler: " ++ wording NotPrimitive)
          end]) /\
  (forall outcome : completion json,
     exists kind body,
       (kind = "success" \/ kind = "danger") /\
       childNodes (page (exec (index_chain wording outcome) w) indexStatus)
       = [Markup (alert_div kind body)]).
Proof.
  assert (forall fields : list (string * json),
     childNodes (page (exec (index_chain wording (Normal (JObj fields))) w) indexStatus)
     = [Markup
          match ToString (lookup "message" fields) with
          | Some text =>
              alert_div
                (if truthy (lookup "success" fields) then "success" else "danger")
                text
          | None => alert_div "danger" ("Fehler: " ++ wording NotPrimitive)
          end]) as Hobj.
  { intros fields. unfold index_chain. rewrite exec_finally, exec_catch.
    unfold then_, settled, bind, index_then, get, ret, bind, as_string.
    destruct (truthy (lookup "success" fields));
      destruct (ToString (lookup "message" fields)); reflexivity. }
  split; [exact Hobj|].
  intros [data|e].
  - destruct data as [|b|x|s|items|fields];
      try (exists "danger", "undefined"; split; [right; reflexivity | reflexivity]).
    + eexists "danger", _. split; [right; reflexivity | reflexivity].
    + rewrite Hobj. destruct (ToString (lookup "message" fields)) as [text|].
      * destruct (truthy (lookup "success" fields)).
        -- eexists "success", _. split; [left; reflexivity | reflexivity].
        -- eexists "danger", _. split; [right; reflexivity | reflexivity].
      * eexists "danger", _. split; [right; reflexivity | reflexivity].
  - eexists "danger", _. split; [right; reflexivity | reflexivity].
Qed.

(** ** Sources with missing parts *)

(** X7.  A source object without a [score] is still rendered where its file
    name converts to a string ([undefined] when that is missing too): its
    item shows that string and the percentage [NaN].  Where the file name
    does not convert (an object with a key [toString] of its own) the
    callback throws a TypeError and appends nothing. *)
Theorem source_without_score (w : world) (fields : list (string * json)) :
  lookup "score" fields = None ->
  append_source wording (JObj fields) w =
    match ToString (lookup "filename" fields) with
    | Some name =>
        (Normal tt,
         exec (appendChild sourcesList
                 (Element "li" "list-group-item"
                    [Text (name ++ " (Relevanz: NaN%)")])) w)
    | None => (Throw (TypeError wording NotPrimitive), w)
    end /\
  ToString None = Some "undefined".
Proof.
  intros H. split; [|reflexivity].
  unfold append_source, get, bind, ret, as_string.
  destruct (ToString (lookup "filename" fields)) as [name|]; [|reflexivity].
  rewrite H.
  unfold as_number, ToNumber, ret, list_item, createElement, set_className,
    set_node_textContent, source_text.
  change (" (Relevanz: " ++ percent NaN ++ "%)") with " (Relevanz: NaN%)".
  rewrite text_nodes_nonempty. reflexivity.
Qed.

(** ** Sources that cannot be rendered *)

Lemma nonempty_length_gt_zero (n : nat) :
  gt_zero (of_Z (Z.of_nat (S n))) = true.
Proof.
  apply positive_gt_zero. rewrite Nat2Z.inj_succ.
  destruct (Z.succ (Z.of_nat n)) as [|p|p] eqn:E; try lia.
  apply of_Z_positive.
Qed.

(** [forEach] stops at a [null] source: the items before it are in the
    list, the ones after it are not looked at. *)
Lemma forEach_null_source (before : list (string * number)) (after : list json) :
  forall w,
  forEach (map source_json before ++ JNull :: after) (append_source wording) w =
  (Throw (TypeError wording (ReadOfNull "filename")),
   World (update (page w) sourcesList
            (with_children (page w sourcesList)
               (childNodes (page w sourcesList) ++ map source_item before)))
         (log w) (in_flight w)).
Proof.
  induction before as [|src before IH]; intros w; cbn [map app forEach].
  - destruct w as [[] l fl]. cbn. rewrite app_nil_r.
    destruct at_sourcesList0; reflexivity.
  - unfold bind. rewrite append_source_item, IH.
    cbn. rewrite <- app_assoc. reflexivity.
Qed.

(** X8.  When a [null] stands among the sources, the items of the sources
    before it are rendered and the rest is dropped: the answer text is set,
    the answer section is left as it was (it is not revealed), the
    TypeError is alerted and written to the console, and the loading
    indicator is hidden. *)
Theorem null_source_stops_rendering (w : world) (a : string)
    (before : list (string * number)) (after : list json) :
  let response :=
    JObj [("success", JBool true); ("answer", JStr a);
          ("sources", JArr (map source_json before ++ JNull :: after))] in
  let w' := exec (ask_chain wording (Normal response)) w in
  childNodes (page w' answerContent) = text_nodes a /\
  childNodes (page w' sourcesList) = map source_item before /\
  page w' answerSection = page w answerSection /\
  hidden (page w' loadingIndicator) = true /\
  log w' = (log w ++
            [Alert ("Fehler bei der Anfrage: " ++ wording (ReadOfNull "filename"))%string;
             ConsoleError "Fehler:" (TypeError wording (ReadOfNull "filename"))])%list.
Proof.
  cbv zeta. unfold ask_chain. rewrite exec_finally, exec_catch.
  unfold then_, settled, ask_then, show_sources, length_positive, call_forEach.
  unfold bind, ret, get.
  cbn -[of_Z Z.of_nat List.length map app forEach text_nodes remove_token
        append_source add_token].
  assert (gt_zero (of_Z (Z.of_nat (List.length
            (map source_json before ++ JNull :: after)))) = true) as ->.
  { destruct before; cbn [map app List.length]; apply nonempty_length_gt_zero. }
  rewrite forEach_null_source.
  cbn -[map text_nodes add_token]. rewrite <- app_assoc.
  repeat split. apply mem_add_token.
Qed.

(** X9.  When [sources] is a non-empty string instead of an array, its
    [length] is positive but it has no [forEach]: the list is emptied and
    stays empty, the answer section is not revealed, and the TypeError is
    alerted. *)
Theorem string_sources_rejected (w : world) (a : string) (c : ascii) (s : string) :
  let response :=
    JObj [("success", JBool true); ("answer", JStr a);
          ("sources", JStr (String c s))] in
  let w' := exec (ask_chain wording (Normal response)) w in
  childNodes (page w' answerContent) = text_nodes a /\
  childNodes (page w' sourcesList) = [] /\
  page w' answerSection = page w answerSection /\
  alerts (log w') =
    (alerts (log w) ++
     [("Fehler bei der Anfrage: "
       ++ wording (NotAFunction "data.sources.forEach"))%string])%list.
Proof.
  cbv zeta. unfold ask_chain. rewrite exec_finally, exec_catch.
  unfold then_, settled, ask_then, show_sources, length_positive, call_forEach.
  unfold bind, ret, get.
  cbn -[of_Z Z.of_nat String.length text_nodes remove_token add_token alerts].
  change (String.length (String c s)) with (S (String.length s)).
  rewrite nonempty_length_gt_zero.
  cbn -[text_nodes add_token alerts].
  repeat split.
  rewrite <- app_assoc, alerts_app. reflexivity.
Qed.

(** ** Values that convert to no primitive value *)

(** X17.  When [success] is truthy and the answer does not convert to a
    string (an object with a key [toString] of its own, or an array that
    holds one), the [textContent] setter throws before anything is
    rendered: the answer, the sources list and the answer section stay as
    they were, the TypeError is alerted and written to the console, and the
    loading indicator is hidden. *)
Theorem unconvertible_answer_reported (w : world) (fields : list (string * json)) :
  truthy (lookup "success" fields) = true ->
  text_of (lookup "answer" fields) = None ->
  exec (ask_chain wording (Normal (JObj fields))) w =
    World
      (update (page w) loadingIndicator
         (with_classList (page w loadingIndicator)
            (add_token "d-none" (classList (page w loadingIndicator)))))
      (log w ++ [Alert ("Fehler bei der Anfrage: " ++ wording NotPrimitive)%string;
                 ConsoleError "Fehler:" (TypeError wording NotPrimitive)])%list
      (in_flight w).
Proof.
  intros Hsuccess Hanswer.
  unfold ask_chain. rewrite exec_finally, exec_catch.
  unfold then_, settled, bind, ask_then, get, ret, bind, as_text.
  rewrite Hsuccess, Hanswer. cbn. rewrite <- app_assoc. reflexivity.
Qed.

Lemma append_source_unconvertible (fields : list (string * json)) (w : world) :
  ToString (lookup "filename" fields) = None \/
  ToNumber (lookup "score" fields) = None ->
  append_source wording (JObj fields) w = (Throw (TypeError wording NotPrimitive), w).
Proof.
  intros H. unfold append_source, get, bind, ret, as_string, as_number.
  destruct (ToString (lookup "filename" fields)) as [name|]; [|reflexivity].
  destruct H as [H|H]; [discriminate H|]. rewrite H. reflexivity.
Qed.

Lemma forEach_unconvertible_source (fields : list (string * json))
    (before : list (string * number)) (after : list json) :
  ToString (lookup "filename" fields) = None \/
  ToNumber (lookup "score" fields) = None ->
  forall w,
  forEach (map source_json before ++ JObj fields :: after) (append_source wording) w =
  (Throw (TypeError wording NotPrimitive),
   World (update (page w) sourcesList
            (with_children (page w sourcesList)
               (childNodes (page w sourcesList) ++ map source_item before)))
         (log w) (in_flight w)).
Proof.
  intros H.
  induction before as [|src before IH]; intros w; cbn [map app forEach].
  - unfold bind. rewrite (append_source_unconvertible fields w H).
    destruct w as [[] l fl]. cbn. rewrite app_nil_r.
    destruct at_sourcesList0; reflexivity.
  - unfold bind. rewrite append_source_item, IH.
    cbn. rewrite <- app_assoc. reflexivity.
Qed.

(** X18.  When the file name of a source does not convert to a string, or
    its score to a number (an object with a key [toString] of its own),
    the items of the sources before it are rendered and the rest is
    dropped: the answer text is set, the answer section is left as it was
    (it is not revealed), the TypeError is alerted and written to the
    console, and the loading indicator is hidden. *)
Theorem unconvertible_source_stops_rendering (w : world) (a : string)
    (before : list (string * number)) (fields : list (string * json))
    (after : list json) :
  ToString (lookup "filename" fields) = None \/
  ToNumber (lookup "score" fields) = None ->
  let response :=
    JObj [("success", JBool true); ("answer", JStr a);
          ("sources", JArr (map source_json before ++ JObj fields :: after))] in
  let w' := exec (ask_chain wording (Normal response)) w in
  childNodes (page w' answerContent) = text_nodes a /\
  childNodes (page w' sourcesList) = map source_item before /\
  page w' answerSection = page w answerSection /\
  hidden (page w' loadingIndicator) = true /\
  log w' = (log w ++
            [Alert ("Fehler bei der Anfrage: " ++ wording NotPrimitive)%string;
             ConsoleError "Fehler:" (TypeError wording NotPrimitive)])%list.
Proof.
  intros H. cbv zeta. unfold ask_chain. rewrite exec_finally, exec_catch.
  unfold then_, settled, ask_then, show_sources, length_positive, call_forEach.
  unfold bind, ret, get.
  cbn -[of_Z Z.of_nat List.length map app forEach text_nodes remove_token
        append_source add_token].
  assert (gt_zero (of_Z (Z.of_nat (List.length
            (map source_json before ++ JObj fields :: after)))) = true) as ->.
  { destruct before; cbn [map app List.length]; apply nonempty_length_gt_zero. }
  rewrite (forEach_unconvertible_source fields before after H).
  cbn -[map text_nodes add_token]. rewrite <- app_assoc.
  repeat split. apply mem_add_token.
Qed.

(** ** The event loop *)

Lemma ask_requests_app (l l' : list chain) :
  ask_requests (l ++ l') = (ask_requests l + ask_requests l')%nat.
Proof.
  induction l as [|[] l IH]; cbn [app ask_requests]; [reflexivity | |];
    rewrite IH; reflexivity.
Qed.

Lemma dispatch_idle_or_busy (ev : event) (w : world) :
  index_idle_or_busy w -> index_idle_or_busy (dispatch wording ev w).
Proof.
  intros G. destruct ev as [|text| |i outcome]; cbn [dispatch].
  - destruct (disabled (page w indexButton)) eqn:D; [exact G|].
    destruct G as [[G _]|[_ G]]; [|congruence].
    right. split; [|reflexivity].
    cbn. rewrite index_requests_app, G. reflexivity.
  - exact G.
  - unfold index_idle_or_busy. rewrite submit_in_flight.
    rewrite (submit_writes w indexButton eq_refl). exact G.
  - destruct (nth_error (in_flight w) i) as [c|] eqn:E; [|exact G].
    pose proof (index_requests_settled _ _ _ E) as N.
    unfold index_idle_or_busy in *.
    destruct c; cbn [chain_of].
    + left. rewrite index_chain_quiet. cbn [in_flight]. split; [lia|].
      unfold index_chain. rewrite exec_finally. reflexivity.
    + rewrite ask_chain_quiet, (ask_chain_writes wording outcome _ indexButton eq_refl).
      cbn [in_flight page]. cbn in N. rewrite <- N. exact G.
Qed.

(** X10.  On a page that starts with the index button enabled and nothing in
    flight, in every state reached by clicks, typing, submits and responses
    the button is enabled exactly when no index request is in flight: it is
    never left disabled once its request has settled. *)
Theorem index_button_never_stuck (w0 : world) (events : list event) :
  in_flight w0 = [] ->
  disabled (page w0 indexButton) = false ->
  index_idle_or_busy (run wording events w0) /\
  (disabled (page (run wording events w0) indexButton) = true <->
   index_requests (in_flight (run wording events w0)) = 1%nat).
Proof.
  intros H0 D0.
  assert (index_idle_or_busy w0) as G0 by (left; rewrite H0; split; [reflexivity|exact D0]).
  assert (forall w, index_idle_or_busy w -> index_idle_or_busy (run wording events w)) as Hrun.
  { induction events as [|ev events IH]; intros w G; cbn [run fold_left].
    - exact G.
    - apply IH, dispatch_idle_or_busy, G. }
  specialize (Hrun w0 G0). split; [exact Hrun|].
  destruct Hrun as [[N D]|[N D]]; rewrite N, D; split; congruence.
Qed.

(** X11.  Clicking the enabled index button any number of times in a row
    does what one click does: one request is issued, the later clicks find
    the button disabled. *)
Theorem repeated_clicks_issue_one_request (w : world) (n : nat) :
  disabled (page w indexButton) = false ->
  run wording (repeat Click (S n)) w = exec indexButton_click w /\
  fetches (log (exec indexButton_click w)) = (fetches (log w) ++ [index_request])%list.
Proof.
  intros D. split.
  - cbn [repeat run fold_left dispatch]. rewrite D.
    generalize (eq_refl : disabled (page (exec indexButton_click w) indexButton) = true).
    generalize (exec indexButton_click w). clear. intros w D.
    induction n as [|n IH]; [reflexivity|].
    cbn [repeat fold_left dispatch]. rewrite D. exact IH.
  - cbn. rewrite fetches_app. reflexivity.
Qed.

(** X12.  The question form has no such guard: submitting a question [n]
    times in a row issues [n] requests, whatever is already in flight, and
    no index request. *)
Theorem repeated_submits_issue_requests (w : world) (n : nat) :
  all_white_space (value (page w questionInput)) = false ->
  ask_requests (in_flight (run wording (repeat Submit n) w))
    = (ask_requests (in_flight w) + n)%nat /\
  index_requests (in_flight (run wording (repeat Submit n) w))
    = index_requests (in_flight w).
Proof.
  revert w. induction n as [|n IH]; intros w H.
  - cbn. split; [lia | reflexivity].
  - cbn [repeat run fold_left dispatch].
    assert (trim (value (page w questionInput)) <> EmptyString) as Hne.
    { intros E. apply trim_empty_iff in E. congruence. }
    assert (all_white_space (value (page (exec questionForm_submit w) questionInput))
            = false) as H'.
    { rewrite (submit_writes w questionInput eq_refl). exact H. }
    destruct (IH _ H') as [IHa IHi]. unfold run in IHa, IHi.
    rewrite IHa, IHi, (submit_sends w Hne). cbn [in_flight].
    rewrite ask_requests_app, index_requests_app. cbn. split; lia.
Qed.

Lemma ask_requests_settled (l : list chain) : forall i c,
  nth_error l i = Some c ->
  ask_requests l =
  (match c with AskChain => 1 | IndexChain => 0 end
   + ask_requests (remove_nth i l))%nat.
Proof.
  induction l as [|c' l IH]; intros [|i] c H; cbn in H; try discriminate.
  - injection H as ->. destruct c; reflexivity.
  - cbn [remove_nth]. destruct c'; cbn [ask_requests];
      rewrite (IH i c H); destruct c; reflexivity.
Qed.

(** X16.  Every response to a question hides the loading indicator, also
    when other question requests are still in flight: the response settles
    one request, the others stay in flight, and nothing shows the indicator
    again for them. *)
Theorem loading_hidden_while_requests_remain (w : world) (i : nat)
    (outcome : completion json) :
  nth_error (in_flight w) i = Some AskChain ->
  hidden (page (dispatch wording (Response i outcome) w) loadingIndicator) = true /\
  S (ask_requests (in_flight (dispatch wording (Response i outcome) w)))
    = ask_requests (in_flight w).
Proof.
  intros H. cbn [dispatch]. rewrite H. cbn [chain_of]. split.
  - unfold ask_chain. rewrite exec_finally. cbn. apply mem_add_token.
  - rewrite ask_chain_quiet. cbn [in_flight].
    rewrite (ask_requests_settled _ _ _ H). reflexivity.
Qed.

End Further.

(** ** Requests in the effects *)

Lemma calm_ret {A} (a : A) : no_fetch (ret a).
Proof. intros w. reflexivity. Qed.

Lemma calm_throw {A} (e : js_error) : no_fetch (@throw A e).
Proof. intros w. reflexivity. Qed.

Lemma calm_settled {A} (o : completion A) : no_fetch (settled o).
Proof. intros w. reflexivity. Qed.

Lemma calm_bind {A B} (m : M A) (k : A -> M B) :
  no_fetch m -> (forall a, no_fetch (k a)) -> no_fetch (bind m k).
Proof.
  intros Hm Hk w. rewrite exec_bind.
  specialize (Hm w). unfold exec in Hm.
  destruct (m w) as [[a|e] w']; simpl in Hm.
  - rewrite (Hk a w'). exact Hm.
  - exact Hm.
Qed.

Lemma calm_catch {A} (p : M A) (h : js_error -> M A) :
  no_fetch p -> (forall e, no_fetch (h e)) -> no_fetch (catch_ p h).
Proof.
  intros Hp Hh w. rewrite exec_catch.
  specialize (Hp w). unfold exec in Hp.
  destruct (p w) as [[a|e] w']; simpl in Hp.
  - exact Hp.
  - rewrite (Hh e w'). exact Hp.
Qed.

Lemma calm_finally {A} (p : M A) (h : M unit) :
  no_fetch p -> no_fetch h -> no_fetch (finally_ p h).
Proof. intros Hp Hh w. rewrite exec_finally, Hh. apply Hp. Qed.

Lemma calm_modify (el : element) (f : element_state -> element_state) :
  no_fetch (modify el f).
Proof. intros w. reflexivity. Qed.

Lemma calm_alert (text : string) : no_fetch (alert text).
Proof. intros w. cbn. rewrite fetches_app. cbn. apply app_nil_r. Qed.

Lemma calm_console_error (label : string) (e : js_error) :
  no_fetch (console_error label e).
Proof. intros w. cbn. rewrite fetches_app. cbn. apply app_nil_r. Qed.

Lemma calm_forEach (items : list json) (f : json -> M unit) :
  (forall x, no_fetch (f x)) -> no_fetch (forEach items f).
Proof.
  intros Hf. induction items as [|x items IH]; cbn [forEach].
  - apply calm_ret.
  - apply calm_bind; auto.
Qed.

Lemma calm_get (wording : type_error -> string) (v : json) (k : string) :
  no_fetch (get wording v k).
Proof. destruct v; intros w; reflexivity. Qed.

Lemma calm_as_string (wording : type_error -> string) (v : JSValue.value) :
  no_fetch (as_string wording v).
Proof. unfold as_string. destruct (ToString v); intros w; reflexivity. Qed.

Lemma calm_as_number (wording : type_error -> string) (v : JSValue.value) :
  no_fetch (as_number wording v).
Proof. unfold as_number. destruct (ToNumber v); intros w; reflexivity. Qed.

Lemma calm_as_text (wording : type_error -> string) (v : JSValue.value) :
  no_fetch (as_text wording v).
Proof. unfold as_text. destruct (text_of v); intros w; reflexivity. Qed.

#[local] Hint Resolve calm_ret calm_throw calm_settled calm_modify calm_alert
  calm_console_error calm_get calm_as_string calm_as_number calm_as_text
  : footprint.

Ltac calm :=
  repeat first
    [ solve [auto with footprint]
    | match goal with |- forall _, _ => intro end
    | apply calm_bind | apply calm_catch | apply calm_finally
    | apply calm_forEach
    | match goal with
      | |- no_fetch (if ?b then _ else _) => destruct b
      | |- no_fetch (match ?x with _ => _ end) => destruct x
      end ].

Section Loop.
Variable wording : type_error -> string.

Lemma index_chain_calm (o : completion json) : no_fetch (index_chain wording o).
Proof.
  unfold index_chain, then_, index_then, index_catch, index_finally,
    set_disabled, set_innerHTML.
  calm.
Qed.

Lemma ask_then_calm (data : json) : no_fetch (ask_then wording data).
Proof.
  unfold ask_then, show_sources, length_positive, call_forEach, append_no_sources,
    append_source, set_textContent, set_innerHTML, appendChild, classList_remove.
  calm.
Qed.

Lemma ask_chain_calm (o : completion json) : no_fetch (ask_chain wording o).
Proof.
  unfold ask_chain, then_, ask_catch, ask_finally, classList_add.
  pose proof ask_then_calm. calm.
Qed.

(** X13.  No response makes the script send anything: whatever the outcome,
    neither chain issues a request (there is no retry), and the requests in
    flight stay as they are. *)
Theorem responses_issue_no_request (w : world) (outcome : completion json) :
  fetches (log (exec (index_chain wording outcome) w)) = fetches (log w) /\
  in_flight (exec (index_chain wording outcome) w) = in_flight w /\
  fetches (log (exec (ask_chain wording outcome) w)) = fetches (log w) /\
  in_flight (exec (ask_chain wording outcome) w) = in_flight w.
Proof.
  repeat split.
  - apply index_chain_calm.
  - apply index_chain_quiet.
  - apply ask_chain_calm.
  - apply ask_chain_quiet.
Qed.

Lemma dispatch_script_requests (ev : event) (w : world) :
  Forall script_request (fetches (log w)) ->
  Forall script_request (fetches (log (dispatch wording ev w))).
Proof.
  intros F. destruct ev as [|text| |i outcome]; cbn [dispatch].
  - destruct (disabled (page w indexButton)); [exact F|].
    cbn. rewrite fetches_app. apply Forall_app. split; [exact F|].
    constructor; [left; reflexivity | constructor].
  - exact F.
  - destruct (trim (value (page w questionInput))) as [|c t] eqn:E.
    + rewrite (proj2 (empty_text_alert w E)). rewrite fetches_app, app_nil_r. exact F.
    + assert (trim (value (page w questionInput)) <> EmptyString) as Hne by congruence.
      rewrite (submit_sends w Hne). cbn [log].
      rewrite fetches_app. apply Forall_app. split; [exact F|].
      constructor; [|constructor].
      right. exists (trim (value (page w questionInput))).
      split; [apply trim_clean, Hne | reflexivity].
  - destruct (nth_error (in_flight w) i) as [[]|]; [| |exact F]; cbn [chain_of].
    + rewrite index_chain_calm. exact F.
    + rewrite ask_chain_calm. exact F.
Qed.

(** X14.  From a page on which nothing has been sent, every request the
    script ever issues, in any sequence of events, is one of two: a POST to
    [/api/index-documents] with the JSON content type and no body, or a POST
    to [/api/ask] with the JSON content type whose body is
    [{question: q}] for a [q] that is not empty and has no white space at
    either end. *)
Theorem only_script_requests (w0 : world) (events : list event) :
  fetches (log w0) = [] ->
  Forall script_request (fetches (log (run wording events w0))).
Proof.
  intros H0.
  assert (Forall script_request (fetches (log w0))) as F0 by (rewrite H0; constructor).
  clear H0. revert w0 F0.
  induction events as [|ev events IH]; intros w F; cbn [run fold_left].
  - exact F.
  - apply IH, dispatch_script_requests, F.
Qed.

End Loop.

(** ** What the statements read *)

Section Reads.
Variable S : element -> bool.

Lemma agree_refl (w : world) : agree S w w.
Proof. intros el _. reflexivity. Qed.

Lemma reads_ret {A} (a : A) : reads_only S (ret a).
Proof. intros w1 w2 H. split; [reflexivity | exact H]. Qed.

Lemma reads_throw {A} (e : js_error) : reads_only S (@throw A e).
Proof. intros w1 w2 H. split; [reflexivity | exact H]. Qed.

Lemma reads_settled {A} (o : completion A) : reads_only S (settled o).
Proof. intros w1 w2 H. split; [reflexivity | exact H]. Qed.

Lemma reads_bind {A B} (m : M A) (k : A -> M B) :
  reads_only S m -> (forall a, reads_only S (k a)) -> reads_only S (bind m k).
Proof.
  intros Hm Hk w1 w2 H. unfold bind.
  destruct (Hm w1 w2 H) as [E G].
  destruct (m w1) as [[a1|e1] w1'], (m w2) as [[a2|e2] w2'];
    cbn [fst snd] in E, G; try discriminate E.
  - injection E as ->. apply Hk, G.
  - injection E as ->. split; [reflexivity | exact G].
Qed.

Lemma reads_catch {A} (p : M A) (h : js_error -> M A) :
  reads_only S p -> (forall e, reads_only S (h e)) -> reads_only S (catch_ p h).
Proof.
  intros Hp Hh w1 w2 H. unfold catch_.
  destruct (Hp w1 w2 H) as [E G].
  destruct (p w1) as [[a1|e1] w1'], (p w2) as [[a2|e2] w2'];
    cbn [fst snd] in E, G; try discriminate E.
  - split; [exact E | exact G].
  - injection E as ->. apply Hh, G.
Qed.

Lemma reads_finally {A} (p : M A) (h : M unit) :
  reads_only S p -> reads_only S h -> reads_only S (finally_ p h).
Proof.
  intros Hp Hh w1 w2 H. unfold finally_.
  destruct (Hp w1 w2 H) as [E G].
  destruct (p w1) as [o1 w1'], (p w2) as [o2 w2']. cbn [fst snd] in E, G.
  destruct (Hh w1' w2' G) as [E' G'].
  destruct (h w1') as [[u1|e1] w1''], (h w2') as [[u2|e2] w2''];
    cbn [fst snd] in *; try discriminate E'.
  - split; [exact E | exact G'].
  - injection E' as ->. split; [reflexivity | exact G'].
Qed.

Lemma reads_modify (el : element) (f : element_state -> element_state) :
  reads_only S (modify el f).
Proof.
  intros w1 w2 H. split; [reflexivity|].
  intros el' Hel'. cbn. rewrite !state_of_update.
  destruct (element_eqb el' el) eqn:E.
  - assert (el' = el) as -> by (destruct el', el; try discriminate E; reflexivity).
    now rewrite (H el Hel').
  - apply H, Hel'.
Qed.

Lemma reads_emit (e : effect) : reads_only S (emit e).
Proof. intros w1 w2 H. split; [reflexivity | exact H]. Qed.

Lemma reads_forEach (items : list json) (f : json -> M unit) :
  (forall x, reads_only S (f x)) -> reads_only S (forEach items f).
Proof.
  intros Hf. induction items as [|x items IH]; cbn [forEach].
  - apply reads_ret.
  - apply reads_bind; auto.
Qed.

Lemma reads_get (wording : type_error -> string) (v : json) (k : string) :
  reads_only S (get wording v k).
Proof. destruct v; intros w1 w2 H; (split; [reflexivity | exact H]). Qed.

Lemma reads_as_string (wording : type_error -> string) (v : JSValue.value) :
  reads_only S (as_string wording v).
Proof.
  unfold as_string. destruct (ToString v); intros w1 w2 H;
    (split; [reflexivity | exact H]).
Qed.

Lemma reads_as_number (wording : type_error -> string) (v : JSValue.value) :
  reads_only S (as_number wording v).
Proof.
  unfold as_number. destruct (ToNumber v); intros w1 w2 H;
    (split; [reflexivity | exact H]).
Qed.

Lemma reads_as_text (wording : type_error -> string) (v : JSValue.value) :
  reads_only S (as_text wording v).
Proof.
  unfold as_text. destruct (text_of v); intros w1 w2 H;
    (split; [reflexivity | exact H]).
Qed.

End Reads.

#[local] Hint Resolve reads_ret reads_throw reads_settled reads_modify reads_emit
  reads_get reads_as_string reads_as_number reads_as_text : footprint.

Ltac reads :=
  repeat first
    [ solve [auto with footprint]
    | match goal with |- forall _, _ => intro end
    | apply reads_bind | apply reads_catch | apply reads_finally
    | apply reads_forEach
    | match goal with
      | |- reads_only _ (if ?b then _ else _) => destruct b
      | |- reads_only _ (match ?x with _ => _ end) => destruct x
      end ].

Section Independence.
Variable wording : type_error -> string.

Lemma index_chain_reads (S : element -> bool) (o : completion json) :
  reads_only S (index_chain wording o).
Proof.
  unfold index_chain, then_, index_then, index_catch, index_finally,
    set_disabled, set_innerHTML, console_error.
  reads.
Qed.

Lemma ask_then_reads (S : element -> bool) (data : json) :
  reads_only S (ask_then wording data).
Proof.
  unfold ask_then, show_sources, length_positive, call_forEach, append_no_sources,
    append_source, set_textContent, set_innerHTML, appendChild, classList_remove, alert.
  reads.
Qed.

Lemma ask_chain_reads (S : element -> bool) (o : completion json) :
  reads_only S (ask_chain wording o).
Proof.
  unfold ask_chain, then_, ask_catch, ask_finally, classList_add, alert, console_error.
  pose proof (ask_then_reads S). reads.
Qed.

Lemma singleton_agree (el : element) (w1 w2 : world) :
  page w1 el = page w2 el -> agree (fun el' => element_eqb el' el) w1 w2.
Proof.
  intros H el' E.
  assert (el' = el) as -> by (destruct el', el; try discriminate E; reflexivity).
  exact H.
Qed.

Lemma element_eqb_refl (el : element) : element_eqb el el = true.
Proof. destruct el; reflexivity. Qed.

(** X15.  The two chains do not interfere: a response to the index request
    and a response to a question leave the same page in either order,
    whatever their outcomes; the requests in flight are the same too. *)
Theorem chains_commute (w : world) (o1 o2 : completion json) (el : element) :
  page (exec (index_chain wording o1) (exec (ask_chain wording o2) w)) el
  = page (exec (ask_chain wording o2) (exec (index_chain wording o1) w)) el /\
  in_flight (exec (index_chain wording o1) (exec (ask_chain wording o2) w))
  = in_flight (exec (ask_chain wording o2) (exec (index_chain wording o1) w)).
Proof.
  assert (forall w', index_elements el = false ->
            page (exec (index_chain wording o1) w') el = page w' el) as Hi
    by (intros; now apply index_chain_writes).
  assert (forall w', answer_elements el = false ->
            page (exec (ask_chain wording o2) w') el = page w' el) as Ha
    by (intros; now apply ask_chain_writes).
  split.
  - destruct (index_elements el) eqn:I, (answer_elements el) eqn:A.
    + destruct el; discriminate.
    + rewrite (Ha _ eq_refl).
      apply (index_chain_reads (fun el' => element_eqb el' el) o1
               (exec (ask_chain wording o2) w) w).
      * apply singleton_agree, Ha, eq_refl.
      * apply element_eqb_refl.
    + rewrite (Hi _ eq_refl). symmetry.
      apply (ask_chain_reads (fun el' => element_eqb el' el) o2
               (exec (index_chain wording o1) w) w).
      * apply singleton_agree, Hi, eq_refl.
      * apply element_eqb_refl.
    + now rewrite (Hi _ eq_refl), !(Ha _ eq_refl), (Hi _ eq_refl).
  - now rewrite !index_chain_quiet, !ask_chain_quiet, index_chain_quiet.
Qed.

End Independence.

(** ** Further worked examples *)

Lemma question_sent_trimmed_example :
  all_white_space (value (page (loaded_page "  Was ist neu? ") questionInput)) = false /\
  log (exec questionForm_submit (loaded_page "  Was ist neu? "))
    = [PreventDefault; Fetch (ask_request "Was ist neu?")] /\
  hidden (page (exec questionForm_submit (loaded_page "  Was ist neu? "))
            loadingIndicator) = false.
Proof.
  split; [reflexivity|].
  destruct (question_sent_trimmed (loaded_page "  Was ist neu? ") eq_refl)
    as (_ & _ & Hlog & _ & Hshown & _).
  split; [exact Hlog | exact Hshown].
Defined.

Lemma falsy_success_alerted_example :
  truthy (lookup "success" [("error", JStr "boom")]) = false /\
  alerts (log (exec (ask_chain v8_wording (Normal (JObj [("error", JStr "boom")])))
                    (loaded_page "x")))
  = ["Fehler: undefined"] /\
  truthy (lookup "success"
            [("success", JBool false);
             ("message", JObj [("toString", JStr "x")])]) = false /\
  alerts (log (exec (ask_chain v8_wording
                       (Normal (JObj [("success", JBool false);
                                      ("message", JObj [("toString", JStr "x")])])))
                    (loaded_page "x")))
  = ["Fehler bei der Anfrage: Cannot convert object to primitive value"].
Proof.
  split; [reflexivity|].
  destruct (falsy_success_alerted v8_wording (loaded_page "x")
              [("error", JStr "boom")] eq_refl) as [E _].
  destruct (falsy_success_alerted v8_wording (loaded_page "x")
              [("success", JBool false);
               ("message", JObj [("toString", JStr "x")])] eq_refl) as [E' _].
  rewrite E, E'. repeat split.
Defined.

Lemma source_without_score_example :
  lookup "score" [("filename", JStr "a.txt")] = None /\
  childNodes
    (page (exec (append_source v8_wording (JObj [("filename", JStr "a.txt")]))
                (loaded_page "x"))
          sourcesList)
  = [Element "li" "list-group-item" [Text "a.txt (Relevanz: NaN%)"]] /\
  lookup "score" [("filename", JObj [("toString", JNum (of_Z 0))])] = None /\
  append_source v8_wording (JObj [("filename", JObj [("toString", JNum (of_Z 0))])])
    (loaded_page "x")
  = (Throw (JsError "TypeError" "Cannot convert object to primitive value"),
     loaded_page "x").
Proof.
  split; [reflexivity|].
  destruct (source_without_score v8_wording (loaded_page "x")
              [("filename", JStr "a.txt")] eq_refl) as [E _].
  destruct (source_without_score v8_wording (loaded_page "x")
              [("filename", JObj [("toString", JNum (of_Z 0))])] eq_refl) as [E' _].
  unfold exec. rewrite E, E'. repeat split.
Defined.

Lemma index_button_never_stuck_example :
  in_flight (loaded_page "x") = [] /\
  disabled (page (loaded_page "x") indexButton) = false /\
  index_idle_or_busy
    (run v8_wording [Click; Submit; Response 0 (Normal JNull); Click]
       (loaded_page "x")).
Proof.
  split; [reflexivity|]. split; [reflexivity|].
  exact (proj1 (index_button_never_stuck v8_wording (loaded_page "x")
                  [Click; Submit; Response 0 (Normal JNull); Click]
                  eq_refl eq_refl)).
Defined.

Lemma repeated_clicks_issue_one_request_example :
  disabled (page (loaded_page "x") indexButton) = false /\
  run v8_wording (repeat Click 3) (loaded_page "x")
  = exec indexButton_click (loaded_page "x").
Proof.
  split; [reflexivity|].
  exact (proj1 (repeated_clicks_issue_one_request v8_wording (loaded_page "x") 2
                  eq_refl)).
Defined.

Lemma repeated_submits_issue_requests_example :
  all_white_space (value (page (loaded_page "Was?") questionInput)) = false /\
  ask_requests (in_flight (run v8_wording (repeat Submit 3) (loaded_page "Was?")))
  = 3%nat.
Proof.
  split; [reflexivity|].
  exact (proj1 (repeated_submits_issue_requests v8_wording (loaded_page "Was?") 3
                  eq_refl)).
Defined.

Lemma only_script_requests_example :
  fetches (log (loaded_page " a b ")) = [] /\
  Forall script_request
    (fetches (log (run v8_wording [Submit; Click; Input "  "; Submit]
                     (loaded_page " a b ")))).
Proof.
  split; [reflexivity|].
  exact (only_script_requests v8_wording (loaded_page " a b ")
           [Submit; Click; Input "  "; Submit] eq_refl).
Defined.

Lemma loading_hidden_while_requests_remain_example :
  nth_error (in_flight (run v8_wording [Submit; Submit] (loaded_page "Was?"))) 0
    = Some AskChain /\
  hidden (page (run v8_wording [Submit; Submit; Response 0 (Normal JNull)]
                  (loaded_page "Was?"))
            loadingIndicator) = true /\
  in_flight (run v8_wording [Submit; Submit; Response 0 (Normal JNull)]
               (loaded_page "Was?"))
  = [AskChain].
Proof.
  split; [reflexivity|].
  split; [|reflexivity].
  exact (proj1 (loading_hidden_while_requests_remain v8_wording
                  (run v8_wording [Submit; Submit] (loaded_page "Was?")) 0
                  (Normal JNull) eq_refl)).
Defined.

Lemma unconvertible_answer_reported_example :
  truthy (lookup "success"
            [("success", JBool true);
             ("answer", JObj [("toString", JNum (of_Z 1))])]) = true /\
  text_of (lookup "answer"
             [("success", JBool true);
              ("answer", JObj [("toString", JNum (of_Z 1))])]) = None /\
  exec (ask_chain v8_wording
          (Normal (JObj [("success", JBool true);
                         ("answer", JObj [("toString", JNum (of_Z 1))])])))
       (loaded_page "x")
  = World (page (loaded_page "x"))
      [Alert "Fehler bei der Anfrage: Cannot convert object to primitive value";
       ConsoleError "Fehler:"
         (JsError "TypeError" "Cannot convert object to primitive value")]
      [].
Proof.
  split; [reflexivity|]. split; [reflexivity|].
  exact (unconvertible_answer_reported v8_wording (loaded_page "x")
           [("success", JBool true);
            ("answer", JObj [("toString", JNum (of_Z 1))])] eq_refl eq_refl).
Defined.

Lemma unconvertible_source_stops_rendering_example :
  ToString (lookup "filename"
              [("filename", JObj [("toString", JNum (of_Z 0))]);
               ("score", JNum (of_decimal 5 (-1)))]) = None /\
  childNodes
    (page (exec (ask_chain v8_wording
                   (Normal (JObj [("success", JBool true); ("answer", JStr "A");
                                  ("sources",
                                   JArr [JObj [("filename",
                                                JObj [("toString", JNum (of_Z 0))]);
                                               ("score", JNum (of_decimal 5 (-1)))]])])))
                (loaded_page "x"))
          sourcesList)
  = [] /\
  hidden
    (page (exec (ask_chain v8_wording
                   (Normal (JObj [("success", JBool true); ("answer", JStr "A");
                                  ("sources",
                                   JArr [JObj [("filename",
                                                JObj [("toString", JNum (of_Z 0))]);
                                               ("score", JNum (of_decimal 5 (-1)))]])])))
                (loaded_page "x"))
          answerSection)
  = true.
Proof.
  split; [reflexivity|].
  destruct (unconvertible_source_stops_rendering v8_wording (loaded_page "x") "A" []
              [("filename", JObj [("toString", JNum (of_Z 0))]);
               ("score", JNum (of_decimal 5 (-1)))] [] (or_introl eq_refl))
    as (_ & Hlist & Hsection & _).
  split; [exact Hlist|].
  cbv zeta in Hsection. cbn [map app] in Hsection. rewrite Hsection. reflexivity.
Defined.
